(** * prawcore.sessions: the retry strategy and the request pipeline

    A shallow embedding of [src/prawcore/sessions.py].

    Python objects that the code shares by reference (retry-strategy
    instances, the [params] and [data] dictionaries) live in an explicit
    heap; everything the code does to the outside world (sleeping, logging,
    the transport call, clearing the access token, decoding a body) is
    appended to a trace.  Code that can raise returns a [Res]. *)

From Stdlib Require Import ZArith QArith Lqa.
From stdpp Require Import base option list gmap strings sorting.

Local Open Scope string_scope.
Local Open Scope list_scope.

(** ** Python values and the heap *)

(** Immutable Python values: dictionary entries and decoded JSON.  A nested
    list or map is a value here: [sessions.py] never writes into a value
    of a dictionary, so whether two dictionaries share a nested value does
    not show in it. *)
#[warnings="-register-all"]
Inductive pyval :=
| PNone
| PBool (b : bool)
| PInt (z : Z)
| PStr (s : string)
| PList (l : list pyval)
| PMap (l : list (string * pyval)).

(** A location is an index into the heap. *)
Abbreviation loc := nat (only parsing).

(** Heap-allocated, identity-carrying objects. *)
Inductive pyobj :=
| OStrategy (_retries : Z)            (* a FiniteRetryStrategy instance *)
| ODict (items : gmap string pyval).  (* a dict with string keys *)

(** The heap: allocation appends, and an object keeps its location. *)
Abbreviation Heap := (list pyobj) (only parsing).

(** What a caller may pass as [data]: nothing, an opaque byte string, a
    reference to a dict, or (after normalisation) a list of pairs. *)
Inductive pydata :=
| DNone
| DRaw (bytes : string)
| DDict (l : loc)
| DItems (items : list (string * pyval)).

(** ** Responses and exceptions *)

Record Response := {
  status_code : Z;
  headers : gmap string string;
  (* what [response.json()] yields; [None] stands for a ValueError *)
  json_result : option pyval
}.

(** An exception object, identified by the method resolution order of its
    class (class names, most specific first) and its arguments;
    [isinstance] looks a class up in it. *)
Record PyException := {
  exc_mro : list string;
  exc_args : string
}.

(** Modelled from the spec: [RequestException] of [prawcore/exceptions.py],
    the uniform wrapper the requestor raises, which carries the original
    cause (spec section 6). *)
Record RequestException := {
  original_exception : PyException;
  request_args : string
}.

(** Modelled from the spec: the callables [STATUS_EXCEPTIONS] maps to, and
    [BadJSON].  The classes are declared in [prawcore/exceptions.py] and
    [authorization_error_class] in [prawcore/util.py]; each is called with
    the response, and a classified error is its kind together with the
    response it was built from (spec glossary). *)
Inductive ExcClass :=
| BadJSON
| BadRequest
| Conflict
| NotFound
| Redirect
| ServerError
| SpecialError
| TooLarge
| UnavailableForLegalReasons
| authorization_error_class.

(** What the pipeline can raise. *)
Inductive Exn :=
| Raised (cls : ExcClass) (response : Response)  (* [cls(response)] *)
| RequestFailed (e : RequestException)           (* a RequestException *)
| Foreign (e : PyException)                      (* any other exception *)
| AssertionError (status : Z)
| AttributeError
| TypeError
| InvalidInvocation (message : string).

(** One call through the rate limiter ends in a response, in a
    [RequestException], or in some exception of another class. *)
Inductive Outcome :=
| Responded (r : Response)
| Failed (e : RequestException)
| Crashed (e : PyException).

(** ** The trace of effects *)

Inductive LogRecord :=
| LogSleeping (seconds : Q)
| LogFetching (method url : string)
| LogData (data : pydata)
| LogParams (params : option pyobj)
| LogResponse (status : Z) (content_length : option string)
| LogRetrying (status : PyException + Z) (method url : string).

Record Request := {
  data : pydata;
  files : option string;
  json : option string;
  method : string;
  params : loc;
  url : string
}.

Inductive Event :=
| EvDebug (r : LogRecord)
| EvWarning (r : LogRecord)
| EvSleep (seconds : Q)                         (* [time.sleep] *)
| EvRefresh                                     (* [authorizer.refresh()] *)
| EvCall (req : Request) (params_now : option pyobj) (authorization : string)
| EvClearAccessToken
| EvJsonDecode (r : Response).

(** ** The environment and the world *)

(** Everything the code asks of its collaborators, indexed by how often it
    has asked before. *)
Record Env := {
  random : nat → Q;             (* successive [random.random()] draws *)
  transport : nat → Outcome;    (* successive [_rate_limiter.call] outcomes *)
  refreshed : nat → string;     (* successive refreshed access tokens *)
  urljoin : string → string → string;
  oauth_url : string
}.

Record World := {
  heap : Heap;
  access_token : option string;
  trace : list Event;
  n_random : nat;
  n_calls : nat;
  n_refresh : nat
}.

Definition with_heap (h : Heap) (w : World) : World :=
  {| heap := h; access_token := access_token w; trace := trace w;
     n_random := n_random w; n_calls := n_calls w; n_refresh := n_refresh w |}.

Definition with_token (t : option string) (w : World) : World :=
  {| heap := heap w; access_token := t; trace := trace w;
     n_random := n_random w; n_calls := n_calls w; n_refresh := n_refresh w |}.

Definition with_trace (t : list Event) (w : World) : World :=
  {| heap := heap w; access_token := access_token w; trace := t;
     n_random := n_random w; n_calls := n_calls w; n_refresh := n_refresh w |}.

(** ** A state and exception monad *)

Inductive Res (A : Type) :=
| Ok (a : A)
| Raise (e : Exn)
| OutOfFuel.
Arguments Ok {A} a.
Arguments Raise {A} e.
Arguments OutOfFuel {A}.

Definition M (A : Type) : Type := World → Res A * World.

#[global] Instance M_ret : MRet M := λ A a w, (Ok a, w).

#[global] Instance M_bind : MBind M := λ A B f m w,
  match m w with
  | (Ok a, w') => f a w'
  | (Raise e, w') => (Raise e, w')
  | (OutOfFuel, w') => (OutOfFuel, w')
  end.

Definition raise {A} (e : Exn) : M A := λ w, (Raise e, w).

Definition out_of_fuel {A} : M A := λ w, (OutOfFuel, w).

Definition emit (ev : Event) : M () :=
  λ w, (Ok (), with_trace (trace w ++ [ev]) w).

(** [alloc o] creates a new object and returns its location. *)
Definition alloc (o : pyobj) : M loc :=
  λ w, (Ok (length (heap w)), with_heap (heap w ++ [o]) w).

Definition deref (l : loc) : M (option pyobj) :=
  λ w, (Ok (heap w !! l), w).

Definition store (l : loc) (o : pyobj) : M () :=
  λ w, (Ok (), with_heap (<[l:=o]> (heap w)) w).

(** [try: body except RequestException as e: handler e] *)
Definition try_except {A} (body : M A) (handler : RequestException → M A)
  : M A :=
  λ w, match body w with
       | (Raise (RequestFailed e), w') => handler e w'
       | r => r
       end.

(** [isinstance(e, classes)] for a tuple of classes. *)
Definition isinstance (e : PyException) (classes : list string) : bool :=
  existsb (λ c, bool_decide (c ∈ exc_mro e)) classes.

(** ** Library calls and built-in operations *)

Section Sessions.
Context (env : Env).

(** [random.random()]: the next draw. *)
Definition random_random : M Q :=
  λ w, (Ok (random env (n_random w)),
        {| heap := heap w; access_token := access_token w; trace := trace w;
           n_random := S (n_random w); n_calls := n_calls w;
           n_refresh := n_refresh w |}).

Definition time_sleep (seconds : Q) : M () := emit (EvSleep seconds).
Definition log_debug (r : LogRecord) : M () := emit (EvDebug r).
Definition log_warning (r : LogRecord) : M () := emit (EvWarning r).

(** [copy.deepcopy] of [None] or of a reference: a new object with the same
    contents (dictionary values are immutable here, so one level is deep). *)
Definition deepcopy (v : option loc) : M (option loc) :=
  match v with
  | None => mret None
  | Some l =>
      o ← deref l;
      match o with
      | Some o => l' ← alloc o; mret (Some l')
      | None => raise TypeError
      end
  end.

(** Python truthiness of [None] or of a reference. *)
Definition truthy (v : option loc) : M bool :=
  match v with
  | None => mret false
  | Some l =>
      o ← deref l;
      match o with
      | Some (ODict items) => mret (bool_decide (items ≠ ∅))
      | _ => mret true
      end
  end.

(** [d[k] = v] *)
Definition setitem (d : loc) (k : string) (v : pyval) : M () :=
  o ← deref d;
  match o with
  | Some (ODict items) => store d (ODict (<[k:=v]> items))
  | _ => raise TypeError
  end.

(** Items are compared by key: the keys of a dict are pairwise different,
    so Python's tuple comparison never reaches the values. *)
Definition item_le (p q : string * pyval) : Prop := String.le p.1 q.1.

#[global] Instance item_le_dec : RelDecision item_le.
Proof. intros p q. unfold item_le. apply _. Defined.

(** [sorted(d.items())] *)
Definition sorted_items (items : gmap string pyval)
  : list (string * pyval) :=
  merge_sort item_le (map_to_list items).

(** ** RetryStrategy and FiniteRetryStrategy *)

(** [self._retries] *)
Definition get_retries (self : loc) : M Z :=
  o ← deref self;
  match o with
  | Some (OStrategy r) => mret r
  | _ => raise AttributeError
  end.

(** [FiniteRetryStrategy(retries)]; the default of [retries] is 3. *)
Definition FiniteRetryStrategy (retries : Z) : M loc :=
  alloc (OStrategy retries).

Definition _consume_retry (self : loc) : M loc :=
  r ← get_retries self;
  FiniteRetryStrategy (r - 1).

Definition _should_retry_on_failure (self : loc) : M bool :=
  r ← get_retries self;
  mret (bool_decide (r > 0)%Z).

(** The duration is a rational: the float arithmetic of the source is
    taken as exact. *)
Definition _sleep_seconds (self : loc) : M (option Q) :=
  r ← get_retries self;
  if bool_decide (r < 3)%Z then
    r' ← get_retries self;
    let base := if bool_decide (r' = 2)%Z then 0%Z else 2%Z in
    u ← random_random;
    mret (Some (inject_Z base + 2 * u)%Q)
  else mret None.

Definition sleep (self : loc) : M (loc * bool) :=
  sleep_seconds ← _sleep_seconds self;
  match sleep_seconds with
  | Some seconds =>
      log_debug (LogSleeping seconds);;
      time_sleep seconds
  | None => mret ()
  end;;
  new_state ← _consume_retry self;
  should_retry ← _should_retry_on_failure new_state;
  mret (new_state, should_retry).

(** ** The authorizer *)

(** Modelled from the spec: the credential of spec section 6, whose class
    lives in [prawcore/auth.py], outside [sessions.py].  [invalidate]
    (here [_clear_access_token]) drops the token, [isValid] holds while a
    token is present, and the optional [refresh] obtains a new one. *)
Definition _clear_access_token : M () :=
  λ w, (Ok (), with_token None (with_trace (trace w ++ [EvClearAccessToken]) w)).

Definition is_valid : M bool :=
  λ w, (Ok (bool_decide (is_Some (access_token w))), w).

Definition refresh : M () :=
  λ w, (Ok (),
        {| heap := heap w;
           access_token := Some (refreshed env (n_refresh w));
           trace := trace w ++ [EvRefresh];
           n_random := n_random w; n_calls := n_calls w;
           n_refresh := S (n_refresh w) |}).

Definition get_access_token : M (option string) :=
  λ w, (Ok (access_token w), w).

(** ** Session *)

(** The entries of [requests.status_codes.codes] that [sessions.py] looks
    up. *)
Definition codes : gmap string Z :=
  list_to_map
    [("ok", 200%Z); ("created", 201%Z); ("no_content", 204%Z);
     ("found", 302%Z); ("bad_request", 400%Z); ("unauthorized", 401%Z);
     ("forbidden", 403%Z); ("not_found", 404%Z); ("conflict", 409%Z);
     ("request_entity_too_large", 413%Z); ("media_type", 415%Z);
     ("unavailable_for_legal_reasons", 451%Z);
     ("internal_server_error", 500%Z); ("bad_gateway", 502%Z);
     ("service_unavailable", 503%Z); ("gateway_timeout", 504%Z)].

Definition RETRY_EXCEPTIONS : list string :=
  ["ChunkedEncodingError"; "ConnectionError"; "ReadTimeout"].

Definition RETRY_STATUSES : gset Z :=
  {[ 520%Z; 522%Z;
     codes !!! "bad_gateway";
     codes !!! "gateway_timeout";
     codes !!! "internal_server_error";
     codes !!! "service_unavailable" ]}.

Definition STATUS_EXCEPTIONS : gmap Z ExcClass :=
  list_to_map
    [(codes !!! "bad_gateway", ServerError);
     (codes !!! "bad_request", BadRequest);
     (codes !!! "conflict", Conflict);
     (codes !!! "found", Redirect);
     (codes !!! "forbidden", authorization_error_class);
     (codes !!! "gateway_timeout", ServerError);
     (codes !!! "internal_server_error", ServerError);
     (codes !!! "media_type", SpecialError);
     (codes !!! "not_found", NotFound);
     (codes !!! "request_entity_too_large", TooLarge);
     (codes !!! "service_unavailable", ServerError);
     (codes !!! "unauthorized", authorization_error_class);
     (codes !!! "unavailable_for_legal_reasons", UnavailableForLegalReasons);
     (520%Z, ServerError);
     (522%Z, ServerError)].

Definition SUCCESS_STATUSES : gset Z :=
  {[ codes !!! "created"; codes !!! "ok" ]}.

(** What a caller may pass as [authorizer]: something that is not a
    [BaseAuthorizer], given by its [repr], or an authorizer, whose class has
    a [refresh] method or not. *)
Inductive AuthorizerArg :=
| NotAuthorizer (repr : string)
| Authorizer (has_refresh : bool).

Record Session := {
  (* [hasattr(self._authorizer, "refresh")] *)
  _authorizer_has_refresh : bool;
  _retry_strategy : loc
}.

(** [Session.__init__] *)
Definition Session_init (authorizer : AuthorizerArg) : M Session :=
  match authorizer with
  | NotAuthorizer repr =>
      raise (InvalidInvocation ("invalid Authorizer: " +:+ repr))
  | Authorizer has_refresh =>
      strategy ← FiniteRetryStrategy 3;
      mret {| _authorizer_has_refresh := has_refresh;
              _retry_strategy := strategy |}
  end.

Definition _log_request (req : Request) : M () :=
  log_debug (LogFetching (method req) (url req));;
  log_debug (LogData (data req));;
  p ← deref (params req);
  log_debug (LogParams p).

Definition _set_header_callback (self : Session) : M string :=
  valid ← is_valid;
  (if negb valid && _authorizer_has_refresh self then refresh else mret ());;
  token ← get_access_token;
  mret ("bearer " +:+ default "None" token).

(** The next outcome of the transport. *)
Definition transport_call : M Response :=
  λ w, let w' := {| heap := heap w; access_token := access_token w;
                    trace := trace w; n_random := n_random w;
                    n_calls := S (n_calls w); n_refresh := n_refresh w |} in
       match transport env (n_calls w) with
       | Responded r => (Ok r, w')
       | Failed e => (Raise (RequestFailed e), w')
       | Crashed e => (Raise (Foreign e), w')
       end.

(** Modelled from the spec: [RateLimiter.call] of spec section 6 invokes
    the header callback immediately before transmission and then performs
    the transport call, whose outcome the environment decides. *)
Definition rate_limiter_call (self : Session) (req : Request) : M Response :=
  authorization ← _set_header_callback self;
  p ← deref (params req);
  emit (EvCall req p authorization);;
  transport_call.

Definition _make_request (self : Session) (req : Request)
    (should_retry_on_failure : bool)
  : M (option Response * option PyException) :=
  try_except
    (response ← rate_limiter_call self req;
     log_debug (LogResponse (status_code response)
                            (headers response !! "content-length"));;
     mret (Some response, None))
    (λ exception,
       if negb should_retry_on_failure
          || negb (isinstance (original_exception exception) RETRY_EXCEPTIONS)
       then raise (RequestFailed exception)
       else mret (None, Some (original_exception exception))).

(** [_do_retry] calls back into [_request_with_retries]; the callee is
    passed in as [recur].  An exception object is true in a condition. *)
Definition _do_retry (recur : Request → option loc → M pyval)
    (req : Request) (response : option Response)
    (retry_strategy_state : loc) (saved_exception : option PyException)
  : M pyval :=
  status ← match saved_exception with
           | Some e => mret (inl e)
           | None =>
               match response with
               | Some r => mret (inr (status_code r))
               | None => raise AttributeError
               end
           end;
  log_warning (LogRetrying status (method req) (url req));;
  recur req (Some retry_strategy_state).

(** [response.json()], with [ValueError] turned into [BadJSON(response)]. *)
Definition decode_json (response : Response) : M pyval :=
  emit (EvJsonDecode response);;
  match json_result response with
  | Some v => mret v
  | None => raise (Raised BadJSON response)
  end.

(** The arms of [_request_with_retries] that follow the retry test: the
    [elif] chain over the status, the assertion and the decoding. *)
Definition settle (response : option Response) : M pyval :=
  match response with
  | None => raise AttributeError
  | Some response =>
      match STATUS_EXCEPTIONS !! status_code response with
      | Some cls => raise (Raised cls response)
      | None =>
          if bool_decide (status_code response = codes !!! "no_content")
          then mret PNone
          else if negb (bool_decide (status_code response ∈ SUCCESS_STATUSES))
          then raise (AssertionError (status_code response))
          else if bool_decide
                    (headers response !! "content-length" = Some "0")
          then mret (PStr "")
          else decode_json response
      end
  end.

(** The recursion of the source is unbounded; [fuel] bounds its depth here,
    and [OutOfFuel] is the result of a call that needed more. *)
Fixpoint _request_with_retries (fuel : nat) (self : Session) (req : Request)
    (retry_strategy_state : option loc) : M pyval :=
  match fuel with
  | O => out_of_fuel
  | S fuel =>
      let retry_strategy_state :=
        default (_retry_strategy self) retry_strategy_state in
      '(new_retry_strategy_state, should_retry_on_failure) ←
        sleep retry_strategy_state;
      _log_request req;;
      '(response, saved_exception) ←
        _make_request self req should_retry_on_failure;
      do_retry ←
        match response with
        | Some r =>
            if bool_decide (status_code r = codes !!! "unauthorized") then
              _clear_access_token;;
              mret (_authorizer_has_refresh self)
            else mret false
        | None => mret false
        end;
      if should_retry_on_failure
         && (do_retry
             || match response with
                | None => true
                | Some r => bool_decide (status_code r ∈ RETRY_STATUSES)
                end)
      then
        _do_retry (_request_with_retries fuel self) req response
                  new_retry_strategy_state saved_exception
      else settle response
  end.

(** [Session.request].  [params] is [None] or a reference; a [data] that is
    a reference to a dict is the [isinstance(data, dict)] case. *)
Definition request (fuel : nat) (self : Session) (method path : string)
    (data : pydata) (files json : option string) (params : option loc)
  : M pyval :=
  copied ← deepcopy params;
  keep ← truthy copied;
  params ← (if keep : bool return M (option loc) then mret copied
            else l ← alloc (ODict ∅); mret (Some l));
  params ← match params return M loc with
           | Some l => mret l
           | None => raise TypeError
           end;
  setitem params "raw_json" (PInt 1);;
  data ← match data return M pydata with
         | DDict l =>
             o ← deref l;
             match o with
             | Some (ODict _) =>
                 copy ← deepcopy (Some l);
                 match copy with
                 | Some l' =>
                     setitem l' "api_type" (PStr "json");;
                     o' ← deref l';
                     match o' with
                     | Some (ODict items) => mret (DItems (sorted_items items))
                     | _ => raise TypeError
                     end
                 | None => raise TypeError
                 end
             | _ => mret data
             end
         | _ => mret data
         end;
  let url := urljoin env (oauth_url env) path in
  _request_with_retries fuel self
    {| data := data; files := files; json := json; method := method;
       params := params; url := url |}
    None.

(** [session(authorizer)]; the default of [authorizer] is [None]. *)
Definition session (authorizer : AuthorizerArg) : M Session :=
  Session_init authorizer.

End Sessions.

(** ** Worlds reached by the steps of one attempt *)

Definition logged (evs : list Event) (w : World) : World :=
  with_trace (trace w ++ evs) w.

Definition base_seconds (r : Z) : Z :=
  if bool_decide (r = 2)%Z then 0%Z else 2%Z.

Definition sleep_events (u : Q) (r : Z) : list Event :=
  if bool_decide (r < 3)%Z then
    let d := (inject_Z (base_seconds r) + 2 * u)%Q in
    [EvDebug (LogSleeping d); EvSleep d]
  else [].

(** The world after [sleep] on a strategy with [r] retries. *)
Definition slept_world (env : Env) (r : Z) (w : World) : World :=
  {| heap := heap w ++ [OStrategy (r - 1)];
     access_token := access_token w;
     trace := trace w ++ sleep_events (random env (n_random w)) r;
     n_random := if bool_decide (r < 3)%Z then S (n_random w) else n_random w;
     n_calls := n_calls w;
     n_refresh := n_refresh w |}.

Definition log_request_events (req : Request) (w : World) : list Event :=
  [EvDebug (LogFetching (method req) (url req));
   EvDebug (LogData (data req));
   EvDebug (LogParams (heap w !! params req))].

(** The world after [_set_header_callback]. *)
Definition header_world (env : Env) (self : Session) (w : World) : World :=
  if negb (bool_decide (is_Some (access_token w)))
     && _authorizer_has_refresh self
  then {| heap := heap w;
          access_token := Some (refreshed env (n_refresh w));
          trace := trace w ++ [EvRefresh];
          n_random := n_random w; n_calls := n_calls w;
          n_refresh := S (n_refresh w) |}
  else w.

Definition authorization (w : World) : string :=
  "bearer " +:+ default "None" (access_token w).

(** The world after the call through the rate limiter. *)
Definition called_world (env : Env) (self : Session) (req : Request)
    (w : World) : World :=
  let w1 := header_world env self w in
  {| heap := heap w1; access_token := access_token w1;
     trace := trace w1
              ++ [EvCall req (heap w1 !! params req) (authorization w1)];
     n_random := n_random w1; n_calls := S (n_calls w1);
     n_refresh := n_refresh w1 |}.

(** The world after [_clear_access_token]. *)
Definition cleared_world (w : World) : World :=
  with_token None (logged [EvClearAccessToken] w).

(** The world after sleeping, logging the request and calling. *)
Definition attempted (env : Env) (self : Session) (req : Request) (r : Z)
    (w : World) : World :=
  let w1 := slept_world env r w in
  called_world env self req (logged (log_request_events req w1) w1).

Definition response_logged (response : Response) (w : World) : World :=
  logged [EvDebug (LogResponse (status_code response)
                               (headers response !! "content-length"))] w.

Definition retry_warning (req : Request) (status : PyException + Z) : Event :=
  EvWarning (LogRetrying status (method req) (url req)).

(** ** Observations on traces and results *)

(** The durations passed to [time.sleep], in order. *)
Definition slept (t : list Event) : list Q :=
  omap (λ ev, match ev with EvSleep s => Some s | _ => None end) t.

(** The transport calls, in order: the request and its query parameters as
    they were when the call was made. *)
Definition call_events (t : list Event) : list (Request * option pyobj) :=
  omap (λ ev, match ev with EvCall req p _ => Some (req, p) | _ => None end) t.

(** The responses handed to the JSON decoder, in order. *)
Definition decodes (t : list Event) : list Response :=
  omap (λ ev, match ev with EvJsonDecode r => Some r | _ => None end) t.

(** How often the access token was cleared. *)
Definition clears (t : list Event) : nat :=
  length (omap (λ ev, match ev with
                      | EvClearAccessToken => Some ()
                      | _ => None
                      end) t).

(** The response an exception carries, if any. *)
Definition exn_response (e : Exn) : option Response :=
  match e with
  | Raised _ response => Some response
  | _ => None
  end.

(** An outcome the pipeline retries while attempts remain: a status in
    [RETRY_STATUSES] or a transport exception in [RETRY_EXCEPTIONS]. *)
Definition retryable_outcome (o : Outcome) : Prop :=
  match o with
  | Responded r => status_code r ∈ RETRY_STATUSES
  | Failed e => isinstance (original_exception e) RETRY_EXCEPTIONS = true
  | Crashed _ => False
  end.

(** The error a retryable outcome ends in once no attempt is left. *)
Definition classified_error (o : Outcome) : Exn :=
  match o with
  | Responded r => Raised ServerError r
  | Failed e => RequestFailed e
  | Crashed e => Foreign e
  end.

(** The object is a retry strategy. *)
Definition is_strategy (o : pyobj) : Prop := ∃ r, o = OStrategy r.

(** The classification table as the specification gives it (section 4.2):
    the class of the error for each fatal status, the server-error codes
    included. *)
Definition spec_status_class (s : Z) : option ExcClass :=
  if bool_decide (s = 400%Z) then Some BadRequest
  else if bool_decide (s = 401%Z ∨ s = 403%Z)
  then Some authorization_error_class
  else if bool_decide (s = 404%Z) then Some NotFound
  else if bool_decide (s = 409%Z) then Some Conflict
  else if bool_decide (s = 302%Z) then Some Redirect
  else if bool_decide (s = 413%Z) then Some TooLarge
  else if bool_decide (s = 415%Z) then Some SpecialError
  else if bool_decide (s = 451%Z) then Some UnavailableForLegalReasons
  else if bool_decide (s = 500%Z ∨ s = 502%Z ∨ s = 503%Z ∨ s = 504%Z
                       ∨ s = 520%Z ∨ s = 522%Z)
  then Some ServerError
  else None.

(** The entries of the caller's [params]; none when it is [None]. *)
Definition params_items (h : list pyobj) (params : option loc)
  : gmap string pyval :=
  match params with
  | Some l => match h !! l with
              | Some (ODict items) => items
              | _ => ∅
              end
  | None => ∅
  end.

(** The caller passes [None] or a reference to a dict as [params]. *)
Definition params_ok (h : list pyobj) (params : option loc) : Prop :=
  match params with
  | Some l => ∃ items, h !! l = Some (ODict items)
  | None => True
  end.

(** A reference passed as [data] refers to an object. *)
Definition data_ok (h : list pyobj) (data : pydata) : Prop :=
  match data with
  | DDict l => is_Some (h !! l)
  | _ => True
  end.

(** The body [request] hands on: the sorted items of the caller's dict and
    of the marker, or the caller's [data] when it is not a dict. *)
Definition transmitted_data (h : list pyobj) (data : pydata) : pydata :=
  match data with
  | DDict l =>
      match h !! l with
      | Some (ODict items) =>
          DItems (sorted_items (<["api_type":=PStr "json"]> items))
      | _ => data
      end
  | _ => data
  end.

(** [triple h0 m Q]: run in a world whose heap starts with [h0], [m] ends
    in such a world, with a result that satisfies [Q]. *)
Definition triple {A} (h0 : list pyobj) (m : M A) (Q : A → Prop) : Prop :=
  ∀ w, h0 `prefix_of` heap w →
       h0 `prefix_of` heap (m w).2 ∧ ∀ a, (m w).1 = Ok a → Q a.

(** ** Example environments and worlds *)

Definition world_of (h : list pyobj) : World :=
  {| heap := h; access_token := Some "token"; trace := [];
     n_random := 0; n_calls := 0; n_refresh := 0 |}.

Definition response_of (status : Z) (content_length : option string)
    (body : option pyval) : Response :=
  {| status_code := status;
     headers := match content_length with
                | Some n => {[ "content-length" := n ]}
                | None => ∅
                end;
     json_result := body |}.

(** An environment whose every random draw is [u] and whose transport
    answers from the list [outcomes], then with an empty 200. *)
Definition env_of (u : Q) (outcomes : list Outcome) : Env :=
  {| random := λ _, u;
     transport := λ k, default (Responded (response_of 200 (Some "0") None))
                               (outcomes !! k);
     refreshed := λ _, "fresh";
     urljoin := String.append;
     oauth_url := "https://oauth.reddit.com" |}.

Definition example_request : Request :=
  {| data := DNone; files := None; json := None; method := "get";
     params := 0; url := "https://oauth.reddit.com/api/v1/me" |}.

(** A session whose strategy is the object at location 1. *)
Definition example_session (has_refresh : bool) : Session :=
  {| _authorizer_has_refresh := has_refresh; _retry_strategy := 1 |}.

(** A heap with a [params] dict at 0 and a strategy with [r] retries at 1. *)
Definition example_heap (r : Z) : list pyobj :=
  [ODict {[ "raw_json" := PInt 1 ]}; OStrategy r].

(** ** The retry loop as a relation *)

(** The world after the response of an attempt has been logged and, when
    its status is 401, the access token cleared. *)
Definition answered (env : Env) (self : Session) (req : Request) (r : Z)
    (w : World) (response : Response) : World :=
  let w2 := response_logged response (attempted env self req r w) in
  if bool_decide (status_code response = 401%Z) then cleared_world w2 else w2.

(** The retry test of [_request_with_retries] on a response, for a strategy
    that had [r] retries before the attempt. *)
Definition retried (self : Session) (r : Z) (response : Response) : bool :=
  bool_decide (r - 1 > 0)%Z
  && (bool_decide (status_code response = 401%Z)
      && _authorizer_has_refresh self
      || bool_decide (status_code response ∈ RETRY_STATUSES)).

(** [attempts env self req r w out]: started in [w] on a strategy with [r]
    retries, the loop ends with the result and the world [out].  One rule
    for each way an attempt ends, by the outcome of its transport call. *)
Inductive attempts (env : Env) (self : Session) (req : Request)
  : Z → World → Res pyval * World → Prop :=
| attempts_crashed r w e :
    transport env (n_calls w) = Crashed e →
    attempts env self req r w (Raise (Foreign e), attempted env self req r w)
| attempts_failed r w e :
    transport env (n_calls w) = Failed e →
    bool_decide (r - 1 > 0)%Z
    && isinstance (original_exception e) RETRY_EXCEPTIONS = false →
    attempts env self req r w
      (Raise (RequestFailed e), attempted env self req r w)
| attempts_failed_again r w e out :
    transport env (n_calls w) = Failed e →
    bool_decide (r - 1 > 0)%Z
    && isinstance (original_exception e) RETRY_EXCEPTIONS = true →
    attempts env self req (r - 1)
      (logged [retry_warning req (inl (original_exception e))]
              (attempted env self req r w)) out →
    attempts env self req r w out
| attempts_settled r w response :
    transport env (n_calls w) = Responded response →
    retried self r response = false →
    attempts env self req r w
      (settle (Some response) (answered env self req r w response))
| attempts_again r w response out :
    transport env (n_calls w) = Responded response →
    retried self r response = true →
    attempts env self req (r - 1)
      (logged [retry_warning req (inr (status_code response))]
              (answered env self req r w response)) out →
    attempts env self req r w out.

(** ** Further observations *)

(** The warnings logged, in order. *)
Definition warnings (t : list Event) : list LogRecord :=
  omap (λ ev, match ev with EvWarning r => Some r | _ => None end) t.

(** The [Authorization] header of each transport call, in order. *)
Definition authorizations (t : list Event) : list string :=
  omap (λ ev, match ev with EvCall _ _ a => Some a | _ => None end) t.


(** The strategy objects that [k] attempts allocate, from a strategy with
    [r] retries. *)
Fixpoint consumed (r : Z) (k : nat) : list pyobj :=
  match k with
  | O => []
  | S k => OStrategy (r - 1) :: consumed (r - 1) k
  end.


(** What a response settles to; the world plays no part in it. *)
Definition response_result (response : Response) : Res pyval :=
  (settle (Some response) (world_of [])).1.

(** What the outcome of the last transport call makes of the request. *)
Definition outcome_result (o : Outcome) : Res pyval :=
  match o with
  | Responded response => response_result response
  | Failed e => Raise (RequestFailed e)
  | Crashed e => Raise (Foreign e)
  end.

(** The [Authorization] header the next transport call will carry: that of
    the token at hand, or of a refreshed one when there is none and the
    authorizer can refresh. *)
Definition next_authorization (env : Env) (self : Session) (w : World)
  : string :=
  if negb (bool_decide (is_Some (access_token w)))
     && _authorizer_has_refresh self
  then "bearer " +:+ refreshed env (n_refresh w)
  else authorization w.

(** How many of the [k] transport calls from the [n]-th on are answered
    with status 401. *)
Fixpoint unauthorized_answers (env : Env) (n k : nat) : nat :=
  match k with
  | O => 0
  | S k =>
      match transport env n with
      | Responded r => if bool_decide (status_code r = 401%Z) then 1 else 0
      | _ => 0
      end + unauthorized_answers env (S n) k
  end.


(** The requests announced in the debug log, by method and url, in order. *)
Definition fetchings (t : list Event) : list (string * string) :=
  omap (λ ev, match ev with
              | EvDebug (LogFetching m u) => Some (m, u)
              | _ => None
              end) t.

(** * Running the monad *)

Lemma bind_run {A B} (m : M A) (f : A → M B) w :
  (m ≫= f) w = match m w with
               | (Ok a, w') => f a w'
               | (Raise e, w') => (Raise e, w')
               | (OutOfFuel, w') => (OutOfFuel, w')
               end.
Proof. reflexivity. Qed.

Ltac unfold_monad :=
  unfold mbind, M_bind, mret, M_ret, raise, out_of_fuel, emit, alloc, deref,
    store, with_heap, with_trace, with_token in *.

Lemma sleep_run env self r w :
  heap w !! self = Some (OStrategy r) →
  sleep env self w =
    (Ok (length (heap w), bool_decide (r - 1 > 0)%Z), slept_world env r w).
Proof.
  destruct w as [h tok tr nr nc nf]. cbn. intros H.
  unfold sleep, _sleep_seconds, _consume_retry, _should_retry_on_failure,
    FiniteRetryStrategy, get_retries, random_random, log_debug, time_sleep,
    slept_world, sleep_events, base_seconds.
  unfold_monad. cbn. rewrite H.
  case_bool_decide; repeat first [rewrite H | progress cbn];
    rewrite lookup_app_r, Nat.sub_diag by done; cbn.
  - by rewrite <- app_assoc.
  - by rewrite app_nil_r.
Qed.

(** On anything but a strategy object, [self._retries] is an
    AttributeError and nothing else happens. *)
Lemma sleep_run_fail env self w :
  (∀ r, heap w !! self ≠ Some (OStrategy r)) →
  sleep env self w = (Raise AttributeError, w).
Proof.
  intros H. unfold sleep, _sleep_seconds, get_retries. unfold_monad.
  destruct (heap w !! self) as [[r|items]|] eqn:E; try done.
  by destruct (H r).
Qed.

Lemma _log_request_run req w :
  _log_request req w = (Ok (), logged (log_request_events req w) w).
Proof.
  destruct w. unfold _log_request, log_debug, logged, log_request_events.
  unfold_monad. cbn. by rewrite <- !app_assoc.
Qed.

Lemma rate_limiter_call_run env self req w :
  rate_limiter_call env self req w =
    (match transport env (n_calls w) with
     | Responded r => Ok r
     | Failed e => Raise (RequestFailed e)
     | Crashed e => Raise (Foreign e)
     end, called_world env self req w).
Proof.
  destruct w as [h tok tr nr nc nf].
  unfold rate_limiter_call, _set_header_callback, is_valid, refresh,
    get_access_token, transport_call, called_world, header_world,
    authorization.
  unfold_monad. cbn.
  destruct (negb (bool_decide (is_Some tok)) && _authorizer_has_refresh self);
    cbn; by destruct (transport env nc).
Qed.

Lemma _make_request_run env self req sr w :
  _make_request env self req sr w =
    match transport env (n_calls w) with
    | Responded r =>
        (Ok (Some r, None), response_logged r (called_world env self req w))
    | Failed e =>
        if negb sr || negb (isinstance (original_exception e) RETRY_EXCEPTIONS)
        then (Raise (RequestFailed e), called_world env self req w)
        else (Ok (None, Some (original_exception e)),
              called_world env self req w)
    | Crashed e => (Raise (Foreign e), called_world env self req w)
    end.
Proof.
  unfold _make_request, try_except. rewrite bind_run, rate_limiter_call_run.
  destruct (transport env (n_calls w)); try done.
  by destruct (negb sr || _).
Qed.

(** One call of [_request_with_retries] on a strategy with [r] retries, by
    the outcome of its transport call. *)
Lemma _request_with_retries_unfold env fuel self req st r w :
  heap w !! default (_retry_strategy self) st = Some (OStrategy r) →
  _request_with_retries env (S fuel) self req st w =
    let should_retry := bool_decide (r - 1 > 0)%Z in
    let new_state := length (heap w) in
    let w1 := attempted env self req r w in
    match transport env (n_calls w) with
    | Crashed e => (Raise (Foreign e), w1)
    | Failed e =>
        if should_retry && isinstance (original_exception e) RETRY_EXCEPTIONS
        then _request_with_retries env fuel self req (Some new_state)
               (logged [retry_warning req (inl (original_exception e))] w1)
        else (Raise (RequestFailed e), w1)
    | Responded response =>
        let w2 := response_logged response w1 in
        let unauthorized := bool_decide (status_code response = 401%Z) in
        let w3 := if unauthorized then cleared_world w2 else w2 in
        if should_retry
           && (unauthorized && _authorizer_has_refresh self
               || bool_decide (status_code response ∈ RETRY_STATUSES))
        then _request_with_retries env fuel self req (Some new_state)
               (logged [retry_warning req (inr (status_code response))] w3)
        else settle (Some response) w3
    end.
Proof.
  intros H. cbn [_request_with_retries].
  rewrite bind_run, (sleep_run _ _ _ _ H). cbv beta iota zeta.
  rewrite bind_run, _log_request_run. cbv beta iota.
  rewrite bind_run, _make_request_run.
  change (n_calls (logged _ _)) with (n_calls w).
  fold (attempted env self req r w).
  destruct (transport env (n_calls w)) as [response|e|e]; [| |done].
  - cbv beta iota. rewrite bind_run.
    change (codes !!! "unauthorized") with 401%Z.
    case_bool_decide.
    + destruct (bool_decide (r - 1 > 0)%Z), (_authorizer_has_refresh self),
        (bool_decide (status_code response ∈ RETRY_STATUSES)); reflexivity.
    + destruct (bool_decide (r - 1 > 0)%Z),
        (bool_decide (status_code response ∈ RETRY_STATUSES)); reflexivity.
  - cbv beta iota.
    destruct (bool_decide (r - 1 > 0)%Z),
      (isinstance (original_exception e) RETRY_EXCEPTIONS); reflexivity.
Qed.

Lemma _request_with_retries_unfold_fail env fuel self req st w :
  (∀ r, heap w !! default (_retry_strategy self) st ≠ Some (OStrategy r)) →
  _request_with_retries env (S fuel) self req st w = (Raise AttributeError, w).
Proof.
  intros H. cbn [_request_with_retries].
  by rewrite bind_run, (sleep_run_fail _ _ _ H).
Qed.

(** * The status tables *)

Lemma RETRY_STATUSES_eq :
  RETRY_STATUSES = {[ 520%Z; 522%Z; 502%Z; 504%Z; 500%Z; 503%Z ]}.
Proof. reflexivity. Qed.

Lemma elem_of_RETRY_STATUSES s :
  s ∈ RETRY_STATUSES ↔
    s = 500%Z ∨ s = 502%Z ∨ s = 503%Z ∨ s = 504%Z ∨ s = 520%Z ∨ s = 522%Z.
Proof.
  rewrite RETRY_STATUSES_eq, !elem_of_union, !elem_of_singleton. lia.
Qed.

Lemma elem_of_SUCCESS_STATUSES s :
  s ∈ SUCCESS_STATUSES ↔ s = 200%Z ∨ s = 201%Z.
Proof.
  change SUCCESS_STATUSES with ({[ 201%Z; 200%Z ]} : gset Z).
  rewrite !elem_of_union, !elem_of_singleton. lia.
Qed.

Lemma STATUS_EXCEPTIONS_lookup s : STATUS_EXCEPTIONS !! s = spec_status_class s.
Proof.
  change STATUS_EXCEPTIONS with
    (<[502%Z:=ServerError]> (<[400%Z:=BadRequest]> (<[409%Z:=Conflict]>
     (<[302%Z:=Redirect]> (<[403%Z:=authorization_error_class]>
     (<[504%Z:=ServerError]> (<[500%Z:=ServerError]> (<[415%Z:=SpecialError]>
     (<[404%Z:=NotFound]> (<[413%Z:=TooLarge]> (<[503%Z:=ServerError]>
     (<[401%Z:=authorization_error_class]>
     (<[451%Z:=UnavailableForLegalReasons]> (<[520%Z:=ServerError]>
     (<[522%Z:=ServerError]> (∅ : gmap Z ExcClass)))))))))))))))).
  unfold spec_status_class.
  repeat (rewrite lookup_insert; case_decide; [subst; by vm_compute|]).
  rewrite lookup_empty.
  repeat (case_bool_decide; [lia|]). done.
Qed.

(** * Observing the worlds of an attempt *)

Lemma heap_attempted env self req r w :
  heap (attempted env self req r w) = heap w ++ [OStrategy (r - 1)].
Proof.
  unfold attempted, called_world, header_world. cbn.
  by destruct (negb _ && _).
Qed.

Lemma n_calls_attempted env self req r w :
  n_calls (attempted env self req r w) = S (n_calls w).
Proof.
  unfold attempted, called_world, header_world. cbn.
  by destruct (negb _ && _).
Qed.

Lemma heap_logged evs w : heap (logged evs w) = heap w.
Proof. done. Qed.
Lemma n_calls_logged evs w : n_calls (logged evs w) = n_calls w.
Proof. done. Qed.
Lemma access_token_logged evs w : access_token (logged evs w) = access_token w.
Proof. done. Qed.
Lemma trace_logged evs w : trace (logged evs w) = trace w ++ evs.
Proof. done. Qed.
Lemma heap_cleared_world w : heap (cleared_world w) = heap w.
Proof. done. Qed.
Lemma n_calls_cleared_world w : n_calls (cleared_world w) = n_calls w.
Proof. done. Qed.
Lemma access_token_cleared_world w : access_token (cleared_world w) = None.
Proof. done. Qed.
Lemma trace_cleared_world w :
  trace (cleared_world w) = trace w ++ [EvClearAccessToken].
Proof. done. Qed.
Lemma heap_response_logged r w : heap (response_logged r w) = heap w.
Proof. done. Qed.
Lemma n_calls_response_logged r w : n_calls (response_logged r w) = n_calls w.
Proof. done. Qed.
Lemma access_token_response_logged r w :
  access_token (response_logged r w) = access_token w.
Proof. done. Qed.
Lemma trace_response_logged r w :
  trace (response_logged r w) =
    trace w ++ [EvDebug (LogResponse (status_code r)
                                     (headers r !! "content-length"))].
Proof. done. Qed.

Create Rewrite HintDb world.
#[local] Hint Rewrite heap_logged n_calls_logged access_token_logged
  trace_logged heap_cleared_world n_calls_cleared_world
  access_token_cleared_world trace_cleared_world heap_response_logged
  n_calls_response_logged access_token_response_logged trace_response_logged
  heap_attempted n_calls_attempted : world.

Lemma call_events_app t1 t2 :
  call_events (t1 ++ t2) = call_events t1 ++ call_events t2.
Proof. apply omap_app. Qed.

Lemma decodes_app t1 t2 : decodes (t1 ++ t2) = decodes t1 ++ decodes t2.
Proof. apply omap_app. Qed.

Lemma clears_app t1 t2 : clears (t1 ++ t2) = clears t1 + clears t2.
Proof. unfold clears. by rewrite omap_app, length_app. Qed.

Lemma call_events_sleep_events u r : call_events (sleep_events u r) = [].
Proof. unfold sleep_events. by case_bool_decide. Qed.

Lemma decodes_sleep_events u r : decodes (sleep_events u r) = [].
Proof. unfold sleep_events. by case_bool_decide. Qed.

Lemma clears_sleep_events u r : clears (sleep_events u r) = 0.
Proof. unfold sleep_events. by case_bool_decide. Qed.

Lemma call_events_attempted env self req r w :
  call_events (trace (attempted env self req r w)) =
    call_events (trace w)
    ++ [(req, (heap w ++ [OStrategy (r - 1)]) !! params req)].
Proof.
  unfold attempted, called_world, header_world. cbn.
  destruct (negb _ && _); cbn;
    rewrite !call_events_app, call_events_sleep_events; cbn;
    by rewrite ?app_nil_r.
Qed.

Lemma decodes_attempted env self req r w :
  decodes (trace (attempted env self req r w)) = decodes (trace w).
Proof.
  unfold attempted, called_world, header_world. cbn.
  destruct (negb _ && _); cbn;
    rewrite !decodes_app, decodes_sleep_events; cbn;
    by rewrite ?app_nil_r.
Qed.

Lemma clears_attempted env self req r w :
  clears (trace (attempted env self req r w)) = clears (trace w).
Proof.
  unfold attempted, called_world, header_world. cbn -[clears].
  destruct (negb _ && _); cbn -[clears];
    rewrite !clears_app, clears_sleep_events; cbn; lia.
Qed.

Lemma settle_run response w :
  settle (Some response) w =
    match STATUS_EXCEPTIONS !! status_code response with
    | Some cls => (Raise (Raised cls response), w)
    | None =>
        if bool_decide (status_code response = 204%Z) then (Ok PNone, w)
        else if bool_decide (status_code response ∈ SUCCESS_STATUSES) then
          if bool_decide (headers response !! "content-length" = Some "0")
          then (Ok (PStr ""), w)
          else (match json_result response with
                | Some v => Ok v
                | None => Raise (Raised BadJSON response)
                end, logged [EvJsonDecode response] w)
        else (Raise (AssertionError (status_code response)), w)
    end.
Proof.
  unfold settle, decode_json.
  change (codes !!! "no_content") with 204%Z.
  destruct (STATUS_EXCEPTIONS !! _); [done|].
  repeat case_bool_decide; try done.
  cbn. rewrite bind_run. cbn. by destruct (json_result response).
Qed.

(** What [settle] leaves alone. *)
Lemma settle_frame response w :
  let w' := (settle response w).2 in
  heap w' = heap w ∧ n_calls w' = n_calls w
  ∧ access_token w' = access_token w
  ∧ call_events (trace w') = call_events (trace w)
  ∧ clears (trace w') = clears (trace w).
Proof.
  destruct response as [response|]; [|done].
  rewrite settle_run.
  destruct (STATUS_EXCEPTIONS !! _); [done|].
  repeat case_bool_decide; try done.
  cbn -[clears]. rewrite call_events_app, clears_app. cbn.
  rewrite app_nil_r. repeat split; lia.
Qed.

Lemma settle_not_out_of_fuel response w :
  (settle response w).1 ≠ OutOfFuel.
Proof.
  destruct response as [response|]; [|done].
  rewrite settle_run.
  destruct (STATUS_EXCEPTIONS !! _); [done|].
  repeat case_bool_decide; try done.
  by destruct (json_result response).
Qed.

Lemma strategy_dec (o : option pyobj) :
  (∃ r, o = Some (OStrategy r)) ∨ (∀ r, o ≠ Some (OStrategy r)).
Proof. destruct o as [[r|items]|]; eauto. Qed.

(** The loop only allocates strategy objects. *)
Lemma _request_with_retries_heap env self req fuel : ∀ st w,
  ∃ ext, heap (_request_with_retries env fuel self req st w).2 = heap w ++ ext
         ∧ Forall is_strategy ext.
Proof.
  induction fuel as [|fuel IH]; intros st w.
  { exists []. by rewrite app_nil_r. }
  destruct (strategy_dec (heap w !! default (_retry_strategy self) st))
    as [[r H]|H].
  2: { rewrite _request_with_retries_unfold_fail by done.
       exists []. by rewrite app_nil_r. }
  rewrite (_request_with_retries_unfold _ _ _ _ _ r) by done.
  assert (Hone : Forall is_strategy [OStrategy (r - 1)]).
  { repeat constructor. by eexists. }
  cbv zeta.
  destruct (transport env (n_calls w)) as [response|e|e].
  - destruct (_ && _).
    + edestruct IH as (ext & -> & Hext).
      destruct (bool_decide _); autorewrite with world;
        (eexists; split; [by rewrite <- app_assoc|by apply Forall_app]).
    + destruct (settle_frame (Some response)
        (if bool_decide (status_code response = 401%Z)
         then cleared_world (response_logged response (attempted env self req r w))
         else response_logged response (attempted env self req r w)))
        as (-> & _).
      exists [OStrategy (r - 1)].
      by destruct (bool_decide _); autorewrite with world.
  - destruct (_ && _).
    + edestruct IH as (ext & -> & Hext). autorewrite with world.
      eexists; split; [by rewrite <- app_assoc|by apply Forall_app].
    + cbn [snd]. autorewrite with world. eauto.
  - cbn [snd]. autorewrite with world. eauto.
Qed.

Lemma lookup_app_is_Some {A} (l ext : list A) i :
  is_Some (l !! i) → (l ++ ext) !! i = l !! i.
Proof. intros [x H]. rewrite H. by apply lookup_app_l_Some. Qed.

(** Every transport call of the loop carries the request it was given and
    the query parameters as they were on entry. *)
Lemma _request_with_retries_calls env self req fuel : ∀ st w,
  is_Some (heap w !! params req) →
  let w' := (_request_with_retries env fuel self req st w).2 in
  (n_calls w ≤ n_calls w')%nat
  ∧ call_events (trace w') =
      call_events (trace w)
      ++ replicate (n_calls w' - n_calls w) (req, heap w !! params req).
Proof.
  induction fuel as [|fuel IH]; intros st w Hp; cbv zeta.
  { cbn. rewrite Nat.sub_diag. cbn. by rewrite app_nil_r. }
  destruct (strategy_dec (heap w !! default (_retry_strategy self) st))
    as [[r H]|H].
  2: { rewrite _request_with_retries_unfold_fail by done. cbn.
       rewrite Nat.sub_diag. cbn. by rewrite app_nil_r. }
  rewrite (_request_with_retries_unfold _ _ _ _ _ r) by done. cbv zeta.
  pose proof (call_events_attempted env self req r w) as Hc.
  rewrite lookup_app_is_Some in Hc by done.
  assert (Hstep : ∀ w1 : World,
    is_Some (heap w1 !! params req) →
    heap w1 !! params req = heap w !! params req →
    n_calls w1 = S (n_calls w) →
    call_events (trace w1) =
      call_events (trace w) ++ [(req, heap w !! params req)] →
    ∀ st',
    let w' := (_request_with_retries env fuel self req st' w1).2 in
    (n_calls w ≤ n_calls w')%nat
    ∧ call_events (trace w') =
        call_events (trace w)
        ++ replicate (n_calls w' - n_calls w) (req, heap w !! params req)).
  { intros w1 Hp1 Hh1 Hn1 Hc1 st'. cbv zeta.
    destruct (IH st' w1 Hp1) as [Hle Heq]. split; [lia|].
    rewrite Heq, Hc1, Hh1, <- app_assoc. f_equal.
    replace (n_calls (_request_with_retries env fuel self req st' w1).2
             - n_calls w)
      with (S (n_calls (_request_with_retries env fuel self req st' w1).2
               - n_calls w1)) by lia.
    done. }
  assert (Hdone : ∀ w1 : World,
    n_calls w1 = S (n_calls w) →
    call_events (trace w1) =
      call_events (trace w) ++ [(req, heap w !! params req)] →
    (n_calls w ≤ n_calls w1)%nat
    ∧ call_events (trace w1) =
        call_events (trace w)
        ++ replicate (n_calls w1 - n_calls w) (req, heap w !! params req)).
  { intros w1 Hn1 Hc1. split; [lia|]. rewrite Hc1, Hn1.
    by replace (S (n_calls w) - n_calls w) with 1 by lia. }
  destruct (transport env (n_calls w)) as [response|e|e].
  - set (w3 := if bool_decide (status_code response = 401%Z)
               then cleared_world (response_logged response
                                     (attempted env self req r w))
               else response_logged response (attempted env self req r w)).
    assert (H3 : heap w3 = heap w ++ [OStrategy (r - 1)]
                 ∧ n_calls w3 = S (n_calls w)
                 ∧ call_events (trace w3) =
                     call_events (trace w) ++ [(req, heap w !! params req)]).
    { unfold w3. destruct (bool_decide _); autorewrite with world;
        rewrite !call_events_app, Hc; cbn; by rewrite !app_nil_r. }
    destruct H3 as (Hh3 & Hn3 & Hc3).
    destruct (_ && _).
    + apply Hstep; autorewrite with world; rewrite ?Hh3, ?lookup_app_is_Some;
        try done.
      rewrite call_events_app, Hc3. cbn. by rewrite app_nil_r.
    + destruct (settle_frame (Some response) w3) as (_ & Hn & _ & Hce & _).
      apply Hdone; [by rewrite Hn|by rewrite Hce].
  - destruct (_ && _).
    + apply Hstep; autorewrite with world; rewrite ?lookup_app_is_Some;
        try done.
      rewrite call_events_app, Hc. cbn. by rewrite app_nil_r.
    + apply Hdone; cbn [snd]; by autorewrite with world.
  - apply Hdone; cbn [snd]; by autorewrite with world.
Qed.

Lemma insert_fresh {A} (l : list A) (x y : A) :
  <[length l:=y]> (l ++ [x]) = l ++ [y].
Proof.
  rewrite insert_app_r_alt by done. by rewrite Nat.sub_diag.
Qed.

Lemma lookup_fresh {A} (l : list A) (x : A) : (l ++ [x]) !! length l = Some x.
Proof. by rewrite lookup_app_r, Nat.sub_diag. Qed.

(** * The retry strategy *)

Lemma slept_app t1 t2 : slept (t1 ++ t2) = slept t1 ++ slept t2.
Proof. apply omap_app. Qed.

Lemma slept_sleep_events u r :
  slept (sleep_events u r) =
    if bool_decide (r < 3)%Z then [(inject_Z (base_seconds r) + 2 * u)%Q]
    else [].
Proof. unfold sleep_events. by case_bool_decide. Qed.

(** C1 (amended).  A call of [sleep] on a strategy with [r] retries
    returns a new strategy with [r - 1] retries and the flag [r - 1 > 0].
    It does not sleep when [r >= 3]; it sleeps [0 + 2u] seconds when
    [r = 2] and [2 + 2u] seconds when [r = 1], where [u] is the draw of
    [random.random()]. *)
Theorem sleep_by_retries env self r w :
  heap w !! self = Some (OStrategy r) →
  ∃ new_state w',
    sleep env self w = (Ok (new_state, bool_decide (r - 1 > 0)%Z), w')
    ∧ heap w' !! new_state = Some (OStrategy (r - 1))
    ∧ let u := random env (n_random w) in
      ((3 ≤ r)%Z → slept (trace w') = slept (trace w))
      ∧ (r = 2%Z → slept (trace w') = slept (trace w) ++ [(0 + 2 * u)%Q])
      ∧ (r = 1%Z → slept (trace w') = slept (trace w) ++ [(2 + 2 * u)%Q]).
Proof.
  intros H. exists (length (heap w)), (slept_world env r w).
  split; [by apply sleep_run|]. split.
  { cbn. by rewrite lookup_app_r, Nat.sub_diag. }
  cbn. rewrite slept_app, slept_sleep_events.
  split; [|split]; intros Hr.
  - rewrite bool_decide_eq_false_2 by lia. by rewrite app_nil_r.
  - by subst r.
  - by subst r.
Qed.

Lemma sleep_by_retries_witness :
  example_heap 2 !! 1 = Some (OStrategy 2)
  ∧ ∃ new_state w',
      sleep (env_of (1#2) []) 1 (world_of (example_heap 2)) =
        (Ok (new_state, bool_decide (2 - 1 > 0)%Z), w')
      ∧ heap w' !! new_state = Some (OStrategy (2 - 1))
      ∧ ((3 ≤ 2)%Z → slept (trace w') = [])
      ∧ (2%Z = 2%Z → slept (trace w') = [] ++ [(0 + 2 * (1#2))%Q])
      ∧ (2%Z = 1%Z → slept (trace w') = [] ++ [(2 + 2 * (1#2))%Q]).
Proof.
  split; [reflexivity|].
  apply (sleep_by_retries (env_of (1#2) []) 1 2 (world_of (example_heap 2))).
  reflexivity.
Defined.

(** Against C1 as stated, which has the sleep with two retries remaining
    last [2 + 2u] seconds for a draw [0 <= u < 1]: with two retries
    remaining and the draw 1/2 the code sleeps one second. *)
Lemma sleep_two_retries_counterexample :
  ∃ d, slept (trace (sleep (env_of (1#2) []) 1
                           (world_of (example_heap 2))).2) = [d]
       ∧ (d == 1)%Q
       ∧ ¬ ∃ u, (0 <= u)%Q ∧ (u < 1)%Q ∧ (d == 2 + 2 * u)%Q.
Proof.
  eexists. split; [reflexivity|]. split; [reflexivity|].
  intros (u & Hge & _ & Heq).
  change (0 + 2 * (1#2) == 2 + 2 * u)%Q in Heq. lra.
Qed.

(** * The retry loop *)

Lemma retry_status_class s :
  s ∈ RETRY_STATUSES → STATUS_EXCEPTIONS !! s = Some ServerError.
Proof.
  rewrite elem_of_RETRY_STATUSES, STATUS_EXCEPTIONS_lookup.
  intros H. unfold spec_status_class.
  repeat (case_bool_decide; [lia|]). by rewrite bool_decide_eq_true_2.
Qed.

Lemma retry_status_not_401 s : s ∈ RETRY_STATUSES → s ≠ 401%Z.
Proof. rewrite elem_of_RETRY_STATUSES. lia. Qed.

Lemma heap_new_state env self req r w evs :
  heap (logged evs (attempted env self req r w)) !! length (heap w)
  = Some (OStrategy (r - 1)).
Proof.
  autorewrite with world. by rewrite lookup_app_r, Nat.sub_diag.
Qed.

(** The recursion ends: on a strategy with [r] retries a fuel of [r], and
    of one at least, gives a result, and more fuel gives the same one. *)
Lemma _request_with_retries_enough_fuel env self req fuel : ∀ st r w,
  heap w !! default (_retry_strategy self) st = Some (OStrategy r) →
  (Z.to_nat r ≤ fuel)%nat → (1 ≤ fuel)%nat →
  (_request_with_retries env fuel self req st w).1 ≠ OutOfFuel
  ∧ ∀ fuel', (fuel ≤ fuel')%nat →
      _request_with_retries env fuel' self req st w
      = _request_with_retries env fuel self req st w.
Proof.
  induction fuel as [|fuel IH]; intros st r w H Hr Hfuel; [lia|].
  assert (Hloop : bool_decide (r - 1 > 0)%Z = true →
    ∀ w1 : World, heap w1 !! length (heap w) = Some (OStrategy (r - 1)) →
      (_request_with_retries env fuel self req (Some (length (heap w))) w1).1
        ≠ OutOfFuel
      ∧ ∀ fuel', (fuel ≤ fuel')%nat →
          _request_with_retries env fuel' self req (Some (length (heap w))) w1
          = _request_with_retries env fuel self req
              (Some (length (heap w))) w1).
  { intros Hsr%bool_decide_eq_true_1 w1 Hw1. apply (IH _ (r - 1)%Z); [done|lia..]. }
  split.
  - rewrite (_request_with_retries_unfold _ _ _ _ _ r) by done. cbv zeta.
    destruct (transport env (n_calls w)) as [response|e|e]; [| |done].
    + destruct (bool_decide (r - 1 > 0)%Z) eqn:Hsr; cbn [andb];
        [|apply settle_not_out_of_fuel].
      destruct (_ || _); [|apply settle_not_out_of_fuel].
      apply Hloop; [done|].
      destruct (bool_decide (status_code response = 401%Z));
        autorewrite with world; apply lookup_fresh.
    + destruct (bool_decide (r - 1 > 0)%Z) eqn:Hsr; cbn [andb]; [|done].
      destruct (isinstance _ _); [|done].
      apply Hloop; [done|]. autorewrite with world. apply lookup_fresh.
  - intros [|fuel'] Hle; [lia|].
    rewrite !(_request_with_retries_unfold _ _ _ _ _ r) by done. cbv zeta.
    destruct (transport env (n_calls w)) as [response|e|e]; [| |done].
    + destruct (bool_decide (r - 1 > 0)%Z) eqn:Hsr; cbn [andb]; [|done].
      destruct (_ || _); [|done].
      apply Hloop; [done| |lia].
      destruct (bool_decide (status_code response = 401%Z));
        autorewrite with world; apply lookup_fresh.
    + destruct (bool_decide (r - 1 > 0)%Z) eqn:Hsr; cbn [andb]; [|done].
      destruct (isinstance _ _); [|done].
      apply Hloop; [done| |lia]. autorewrite with world. apply lookup_fresh.
Qed.

(** C2.  On a strategy with [n >= 1] retries, when each of the next [n]
    transport calls ends in a retryable outcome, [_request_with_retries]
    makes exactly [n] calls and raises the classified error of the last
    one; any fuel of at least [n] is enough. *)
Theorem all_retryable_outcomes_exhaust_the_retries env self req fuel :
  ∀ (n : Z) st w,
  (1 ≤ n)%Z →
  heap w !! default (_retry_strategy self) st = Some (OStrategy n) →
  (∀ k, (n_calls w ≤ k < n_calls w + Z.to_nat n)%nat →
        retryable_outcome (transport env k)) →
  (Z.to_nat n ≤ fuel)%nat →
  ∃ w',
    _request_with_retries env fuel self req st w =
      (Raise (classified_error
                (transport env (n_calls w + Z.to_nat n - 1))), w')
    ∧ n_calls w' = (n_calls w + Z.to_nat n)%nat
    ∧ length (call_events (trace w')) =
        (length (call_events (trace w)) + Z.to_nat n)%nat.
Proof.
  induction fuel as [|fuel IH]; intros n st w Hn H Hall Hfuel; [lia|].
  rewrite (_request_with_retries_unfold _ _ _ _ _ n) by done. cbv zeta.
  assert (Hk : retryable_outcome (transport env (n_calls w)))
    by (apply Hall; lia).
  destruct (decide (n = 1%Z)) as [->|Hn1].
  - (* the last attempt *)
    replace (n_calls w + Z.to_nat 1 - 1)%nat with (n_calls w) by lia.
    rewrite (bool_decide_eq_false_2 (1 - 1 > 0)%Z) by lia.
    destruct (transport env (n_calls w)) as [response|e|e]; [| |done].
    + unfold retryable_outcome in Hk.
      rewrite (bool_decide_eq_false_2 (status_code response = 401%Z))
        by by apply retry_status_not_401.
      cbn [andb].
      rewrite settle_run, (retry_status_class _ Hk).
      eexists. split; [done|]. autorewrite with world.
      rewrite call_events_app, call_events_attempted, !length_app. cbn. lia.
    + cbn [andb bool_decide]. eexists. split; [done|]. autorewrite with world.
      rewrite call_events_attempted, !length_app. cbn. lia.
  - rewrite (bool_decide_eq_true_2 (n - 1 > 0)%Z) by lia.
    assert (Hto : Z.to_nat n = S (Z.to_nat (n - 1))) by lia.
    destruct (transport env (n_calls w)) as [response|e|e] eqn:Ht; [| |done].
    + unfold retryable_outcome in Hk.
      rewrite (bool_decide_eq_false_2 (status_code response = 401%Z))
        by by apply retry_status_not_401.
      rewrite (bool_decide_eq_true_2 _ Hk). cbn [andb orb].
      edestruct (IH (n - 1)%Z (Some (length (heap w)))) as (w' & -> & Hc & Hl);
        [| apply heap_new_state | | | ]; [lia| |lia|].
      { intros k. autorewrite with world. intros Hr. apply Hall. lia. }
      revert Hc Hl. autorewrite with world.
      rewrite !call_events_app, call_events_attempted, !length_app.
      rewrite Hto. simpl (length (call_events [_])). simpl (length [_]).
      intros Hc Hl. exists w'. split; [|lia].
      by replace (S (n_calls w) + Z.to_nat (n - 1) - 1)%nat
        with (n_calls w + S (Z.to_nat (n - 1)) - 1)%nat by lia.
    + unfold retryable_outcome in Hk. rewrite Hk. cbn [andb].
      edestruct (IH (n - 1)%Z (Some (length (heap w)))) as (w' & -> & Hc & Hl);
        [| apply heap_new_state | | | ]; [lia| |lia|].
      { intros k. autorewrite with world. intros Hr. apply Hall. lia. }
      revert Hc Hl. autorewrite with world.
      rewrite !call_events_app, call_events_attempted, !length_app.
      rewrite Hto. simpl (length (call_events [_])). simpl (length [_]).
      intros Hc Hl. exists w'. split; [|lia].
      by replace (S (n_calls w) + Z.to_nat (n - 1) - 1)%nat
        with (n_calls w + S (Z.to_nat (n - 1)) - 1)%nat by lia.
Qed.

Lemma all_retryable_outcomes_exhaust_the_retries_witness :
  let env := env_of (1#2)
               [Responded (response_of 503 None None);
                Failed {| original_exception :=
                            {| exc_mro := ["ConnectionError"; "RequestException";
                                           "IOError"; "Exception"];
                               exc_args := "reset" |};
                          request_args := "get" |};
                Responded (response_of 502 None None)] in
  let w := world_of (example_heap 3) in
  ∃ w',
    _request_with_retries env 3 (example_session true) example_request None w
      = (Raise (classified_error (transport env 2)), w')
    ∧ n_calls w' = 3
    ∧ length (call_events (trace w')) = 3.
Proof.
  intros env w.
  apply (all_retryable_outcomes_exhaust_the_retries
           env (example_session true) example_request 3 3 None w).
  - lia.
  - reflexivity.
  - intros [|[|[|k]]] Hk; [|reflexivity| |cbn in Hk; lia];
      apply elem_of_RETRY_STATUSES; cbn; lia.
  - cbn. lia.
Defined.

(** The number of transport calls never decreases, and a call of
    [_request_with_retries] on a strategy object makes at least one. *)
Lemma _request_with_retries_n_calls env self req fuel : ∀ st w,
  (n_calls w ≤ n_calls (_request_with_retries env fuel self req st w).2)%nat.
Proof.
  induction fuel as [|fuel IH]; intros st w; [done|].
  destruct (strategy_dec (heap w !! default (_retry_strategy self) st))
    as [[r H]|H].
  2: { by rewrite _request_with_retries_unfold_fail. }
  rewrite (_request_with_retries_unfold _ _ _ _ _ r) by done. cbv zeta.
  destruct (transport env (n_calls w)) as [response|e|e].
  - destruct (_ && _).
    + etrans; [|apply IH].
      destruct (bool_decide _); autorewrite with world; lia.
    + destruct (settle_frame (Some response)
        (if bool_decide (status_code response = 401%Z)
         then cleared_world (response_logged response
                               (attempted env self req r w))
         else response_logged response (attempted env self req r w)))
        as (_ & -> & _).
      destruct (bool_decide _); autorewrite with world; lia.
  - destruct (_ && _).
    + etrans; [|apply IH]. autorewrite with world. lia.
    + cbn [snd]. autorewrite with world. lia.
  - cbn [snd]. autorewrite with world. lia.
Qed.

(** C3.  When the response of an attempt has status 401, the access token
    is cleared whatever else holds.  The call then goes on to a further
    attempt exactly when the authorizer has [refresh] and
    [should_retry_on_failure] is true; otherwise it makes no further
    transport call and raises the authorization error of the response. *)
Theorem unauthorized_response env fuel self req st r w response :
  heap w !! default (_retry_strategy self) st = Some (OStrategy r) →
  transport env (n_calls w) = Responded response →
  status_code response = 401%Z →
  let should_retry_on_failure := bool_decide (r - 1 > 0)%Z in
  let w3 := cleared_world
              (response_logged response (attempted env self req r w)) in
  let run := _request_with_retries env (S fuel) self req st w in
  access_token w3 = None
  ∧ clears (trace w3) = S (clears (trace w))
  ∧ (_authorizer_has_refresh self && should_retry_on_failure = true →
       run = _request_with_retries env fuel self req (Some (length (heap w)))
               (logged [retry_warning req (inr 401%Z)] w3)
       ∧ (0 < fuel → n_calls w + 2 ≤ n_calls run.2)%nat)
  ∧ (_authorizer_has_refresh self && should_retry_on_failure = false →
       run = (Raise (Raised authorization_error_class response), w3)
       ∧ n_calls w3 = S (n_calls w)).
Proof.
  intros H Ht H401. cbv zeta.
  rewrite (_request_with_retries_unfold _ _ _ _ _ r) by done. cbv zeta.
  rewrite Ht, H401.
  rewrite (bool_decide_eq_true_2 (401 = 401)%Z) by done.
  rewrite (bool_decide_eq_false_2 (401%Z ∈ RETRY_STATUSES))
    by (rewrite elem_of_RETRY_STATUSES; lia).
  assert (Hcond : bool_decide (r - 1 > 0)%Z
                  && (true && _authorizer_has_refresh self || false)
                  = _authorizer_has_refresh self && bool_decide (r - 1 > 0)%Z)
    by (by destruct (_authorizer_has_refresh self), (bool_decide _)).
  rewrite Hcond. clear Hcond.
  split; [done|]. split.
  { rewrite trace_cleared_world, trace_response_logged, !clears_app,
      clears_attempted. cbn. lia. }
  split; intros ->.
  - split; [done|]. intros Hfuel. destruct fuel as [|fuel]; [lia|].
    set (w4 := logged _ _).
    assert (Hv : heap w4 !! default (_retry_strategy self)
                                    (Some (length (heap w)))
                 = Some (OStrategy (r - 1)))
      by apply heap_new_state.
    rewrite (_request_with_retries_unfold _ _ _ _ _ _ _ Hv). cbv zeta.
    assert (Hn : n_calls w4 = S (n_calls w)).
    { unfold w4. by autorewrite with world. }
    destruct (transport env (n_calls w4)) as [response'|e|e].
    + destruct (_ && _).
      * etrans; [|apply _request_with_retries_n_calls].
        destruct (bool_decide _); autorewrite with world; lia.
      * destruct (settle_frame (Some response')
          (if bool_decide (status_code response' = 401%Z)
           then cleared_world (response_logged response'
                                 (attempted env self req (r - 1) w4))
           else response_logged response' (attempted env self req (r - 1) w4)))
          as (_ & -> & _).
        destruct (bool_decide _); autorewrite with world; lia.
    + destruct (_ && _).
      * etrans; [|apply _request_with_retries_n_calls].
        autorewrite with world. lia.
      * cbn [snd]. autorewrite with world. lia.
    + cbn [snd]. autorewrite with world. lia.
  - rewrite settle_run, H401. split; [done|]. by autorewrite with world.
Qed.

Lemma unauthorized_response_witness :
  let env := env_of (1#2) [Responded (response_of 401 None None)] in
  let w := world_of (example_heap 3) in
  let w3 := cleared_world
              (response_logged (response_of 401 None None)
                 (attempted env (example_session true) example_request 3 w)) in
  let run := _request_with_retries env 2 (example_session true)
               example_request None w in
  access_token w3 = None
  ∧ clears (trace w3) = 1
  ∧ (true && bool_decide (3 - 1 > 0)%Z = true →
       run = _request_with_retries env 1 (example_session true)
               example_request (Some 2)
               (logged [retry_warning example_request (inr 401%Z)] w3)
       ∧ (0 < 1 → 2 ≤ n_calls run.2)%nat)
  ∧ (true && bool_decide (3 - 1 > 0)%Z = false →
       run = (Raise (Raised authorization_error_class
                       (response_of 401 None None)), w3)
       ∧ n_calls w3 = 1).
Proof.
  intros env w.
  apply (unauthorized_response env 1 (example_session true) example_request
           None 3 w (response_of 401 None None)); reflexivity.
Defined.

(** * Classification of a response *)

(** Against C4 as stated, status 401 with a refreshable authorizer and
    retries left: the first response is in the table of fatal statuses, yet
    no error is raised; the request is made again and its second response
    is returned. *)
Lemma unauthorized_then_ok_counterexample :
  let r401 := response_of 401 None None in
  let ok := PMap [("ok", PBool true)] in
  let env := env_of (1#2) [Responded r401;
                           Responded (response_of 200 None (Some ok))] in
  STATUS_EXCEPTIONS !! status_code r401 = Some authorization_error_class
  ∧ transport env 0 = Responded r401
  ∧ (_request_with_retries env 3 (example_session true) example_request None
       (world_of (example_heap 3))).1 = Ok ok.
Proof. repeat split; reflexivity. Qed.

(** C4 (amended).  The retryable statuses are exactly 500, 502, 503, 504,
    520 and 522, and the table of the code is the table of the
    specification.  A response whose status is in the table makes the call
    raise the error of its class, built from the response itself, provided
    that a server-error status comes with the retries exhausted and that a
    401 comes with an authorizer without [refresh] or with the retries
    exhausted. *)
Theorem fatal_statuses_raise env fuel self req st r w response cls :
  heap w !! default (_retry_strategy self) st = Some (OStrategy r) →
  transport env (n_calls w) = Responded response →
  spec_status_class (status_code response) = Some cls →
  (status_code response ∈ RETRY_STATUSES → ¬ (r - 1 > 0)%Z) →
  (status_code response = 401%Z →
     _authorizer_has_refresh self = false ∨ ¬ (r - 1 > 0)%Z) →
  (∀ s, s ∈ RETRY_STATUSES ↔
          s = 500%Z ∨ s = 502%Z ∨ s = 503%Z ∨ s = 504%Z
          ∨ s = 520%Z ∨ s = 522%Z)
  ∧ (∀ s, STATUS_EXCEPTIONS !! s = spec_status_class s)
  ∧ ∃ w' e,
      _request_with_retries env (S fuel) self req st w = (Raise e, w')
      ∧ e = Raised cls response
      ∧ exn_response e = Some response
      ∧ n_calls w' = S (n_calls w).
Proof.
  intros H Ht Hcls Hretry H401.
  split; [apply elem_of_RETRY_STATUSES|].
  split; [apply STATUS_EXCEPTIONS_lookup|].
  rewrite (_request_with_retries_unfold _ _ _ _ _ r) by done. cbv zeta.
  rewrite Ht.
  set (w3 := if bool_decide (status_code response = 401%Z) then _ else _).
  assert (Hn : n_calls w3 = S (n_calls w)).
  { unfold w3. destruct (bool_decide (status_code response = 401%Z));
      by autorewrite with world. }
  assert (Hno : bool_decide (r - 1 > 0)%Z
                && (bool_decide (status_code response = 401%Z)
                    && _authorizer_has_refresh self
                    || bool_decide (status_code response ∈ RETRY_STATUSES))
                = false).
  { case_bool_decide as Hsr; [|done]. cbn [andb].
    apply orb_false_intro.
    - case_bool_decide as E; [|done].
      destruct (H401 E) as [-> | ?]; [apply andb_false_r|done].
    - case_bool_decide as E; [|done]. by destruct (Hretry E). }
  rewrite Hno, settle_run, STATUS_EXCEPTIONS_lookup, Hcls.
  by exists w3, (Raised cls response).
Qed.

Lemma fatal_statuses_raise_witness :
  let r404 := response_of 404 None None in
  let env := env_of (1#2) [Responded r404] in
  let w := world_of (example_heap 3) in
  (∀ s, s ∈ RETRY_STATUSES ↔
          s = 500%Z ∨ s = 502%Z ∨ s = 503%Z ∨ s = 504%Z
          ∨ s = 520%Z ∨ s = 522%Z)
  ∧ (∀ s, STATUS_EXCEPTIONS !! s = spec_status_class s)
  ∧ ∃ w' e,
      _request_with_retries env 1 (example_session true) example_request
        None w = (Raise e, w')
      ∧ e = Raised NotFound r404
      ∧ exn_response e = Some r404
      ∧ n_calls w' = 1.
Proof.
  intros r404 env w.
  apply (fatal_statuses_raise env 0 (example_session true) example_request
           None 3 w r404 NotFound); try reflexivity.
  - rewrite elem_of_RETRY_STATUSES. cbn. lia.
  - cbn. lia.
Defined.

(** C5.  A response with status 204 makes the call return [None] and one
    with status 200 or 201 and a content-length of "0" makes it return the
    empty string, both without a call of the decoder.  Any other 200 or
    201 is decoded exactly once: the call returns the decoded value, or
    raises [BadJSON] when decoding fails. *)
Theorem success_arm env fuel self req st r w response :
  heap w !! default (_retry_strategy self) st = Some (OStrategy r) →
  transport env (n_calls w) = Responded response →
  let w2 := response_logged response (attempted env self req r w) in
  let run := _request_with_retries env (S fuel) self req st w in
  (status_code response = 204%Z →
     run = (Ok PNone, w2) ∧ decodes (trace run.2) = decodes (trace w))
  ∧ (status_code response = 200%Z ∨ status_code response = 201%Z →
       (headers response !! "content-length" = Some "0" →
          run = (Ok (PStr ""), w2)
          ∧ decodes (trace run.2) = decodes (trace w))
       ∧ (headers response !! "content-length" ≠ Some "0" →
            decodes (trace run.2) = decodes (trace w) ++ [response]
            ∧ run.1 = match json_result response with
                      | Some v => Ok v
                      | None => Raise (Raised BadJSON response)
                      end)).
Proof.
  intros H Ht. cbv zeta.
  rewrite (_request_with_retries_unfold _ _ _ _ _ r) by done. cbv zeta.
  rewrite Ht.
  assert (Hd : decodes (trace (response_logged response
                                 (attempted env self req r w)))
               = decodes (trace w)).
  { rewrite trace_response_logged, decodes_app, decodes_attempted. cbn.
    by rewrite app_nil_r. }
  assert (Harm : ∀ s, status_code response = s →
            s = 204%Z ∨ s = 200%Z ∨ s = 201%Z →
            bool_decide (status_code response = 401%Z) = false
            ∧ bool_decide (status_code response ∈ RETRY_STATUSES) = false
            ∧ STATUS_EXCEPTIONS !! status_code response = None).
  { intros s -> Hs. split; [|split].
    - apply bool_decide_eq_false_2. lia.
    - apply bool_decide_eq_false_2. rewrite elem_of_RETRY_STATUSES. lia.
    - rewrite STATUS_EXCEPTIONS_lookup. unfold spec_status_class.
      repeat (case_bool_decide; [lia|]). done. }
  split.
  - intros Hs. destruct (Harm _ Hs) as (-> & -> & Hnone); [lia|].
    rewrite andb_false_r. cbn [orb].
    rewrite settle_run, Hnone, Hs. by rewrite bool_decide_eq_true_2.
  - intros Hs.
    destruct (Harm _ eq_refl) as (-> & -> & Hnone); [lia|].
    rewrite andb_false_r. cbn [orb].
    rewrite settle_run, Hnone.
    rewrite (bool_decide_eq_false_2 (status_code response = 204%Z)) by lia.
    rewrite (bool_decide_eq_true_2 (status_code response ∈ SUCCESS_STATUSES))
      by (rewrite elem_of_SUCCESS_STATUSES; lia).
    split; intros Hcl.
    + by rewrite bool_decide_eq_true_2.
    + rewrite bool_decide_eq_false_2 by done. cbn [fst snd].
      rewrite trace_logged, decodes_app, Hd. done.
Qed.

Lemma success_arm_witness :
  let response := response_of 200 (Some "2") None in
  let env := env_of (1#2) [Responded response] in
  let w := world_of (example_heap 3) in
  let w2 := response_logged response
              (attempted env (example_session true) example_request 3 w) in
  let run := _request_with_retries env 1 (example_session true)
               example_request None w in
  (200%Z = 204%Z → run = (Ok PNone, w2) ∧ decodes (trace run.2) = [])
  ∧ (200%Z = 200%Z ∨ 200%Z = 201%Z →
       (headers response !! "content-length" = Some "0" →
          run = (Ok (PStr ""), w2) ∧ decodes (trace run.2) = [])
       ∧ (headers response !! "content-length" ≠ Some "0" →
            decodes (trace run.2) = [] ++ [response]
            ∧ run.1 = Raise (Raised BadJSON response))).
Proof.
  intros response env w.
  apply (success_arm env 0 (example_session true) example_request None 3 w
           response); reflexivity.
Defined.

(** A response outside the table of fatal statuses is never retried. *)
Lemma unlisted_status_not_retried s :
  STATUS_EXCEPTIONS !! s = None →
  bool_decide (s = 401%Z) = false ∧ bool_decide (s ∈ RETRY_STATUSES) = false.
Proof.
  rewrite STATUS_EXCEPTIONS_lookup. unfold spec_status_class. intros H.
  repeat (case_bool_decide; [done|]).
  split; apply bool_decide_eq_false_2; [lia|].
  rewrite elem_of_RETRY_STATUSES. lia.
Qed.

(** C7.  A response that is not in the table of fatal statuses and is not
    a 204 is checked against the success set, which is 200 and 201.  Any
    other status raises the assertion error after this one transport call,
    whatever the retries left; a status in the success set, the only ones
    left in the known universe, raises no assertion error. *)
Theorem unexpected_status_asserts env fuel self req st r w response :
  heap w !! default (_retry_strategy self) st = Some (OStrategy r) →
  transport env (n_calls w) = Responded response →
  STATUS_EXCEPTIONS !! status_code response = None →
  status_code response ≠ 204%Z →
  let w2 := response_logged response (attempted env self req r w) in
  let run := _request_with_retries env (S fuel) self req st w in
  (status_code response ∈ SUCCESS_STATUSES ↔
     status_code response = 200%Z ∨ status_code response = 201%Z)
  ∧ (status_code response ∉ SUCCESS_STATUSES →
       run = (Raise (AssertionError (status_code response)), w2)
       ∧ n_calls w2 = S (n_calls w))
  ∧ (status_code response ∈ SUCCESS_STATUSES →
       ∀ s, run.1 ≠ Raise (AssertionError s)).
Proof.
  intros H Ht Hnone H204. cbv zeta.
  split; [apply elem_of_SUCCESS_STATUSES|].
  rewrite (_request_with_retries_unfold _ _ _ _ _ r) by done. cbv zeta.
  rewrite Ht.
  destruct (unlisted_status_not_retried _ Hnone) as [-> ->].
  rewrite andb_false_r. cbn [orb].
  rewrite settle_run, Hnone.
  rewrite (bool_decide_eq_false_2 (status_code response = 204%Z)) by done.
  split; intros Hs.
  - rewrite bool_decide_eq_false_2 by done. split; [done|].
    by autorewrite with world.
  - rewrite bool_decide_eq_true_2 by done. intros s.
    case_bool_decide; [done|]. by destruct (json_result response).
Qed.

Lemma unexpected_status_asserts_witness :
  let response := response_of 418 None None in
  let env := env_of (1#2) [Responded response] in
  let w := world_of (example_heap 3) in
  let w2 := response_logged response
              (attempted env (example_session true) example_request 3 w) in
  let run := _request_with_retries env 1 (example_session true)
               example_request None w in
  (418%Z ∈ SUCCESS_STATUSES ↔ 418%Z = 200%Z ∨ 418%Z = 201%Z)
  ∧ (418%Z ∉ SUCCESS_STATUSES →
       run = (Raise (AssertionError 418), w2) ∧ n_calls w2 = 1)
  ∧ (418%Z ∈ SUCCESS_STATUSES → ∀ s, run.1 ≠ Raise (AssertionError s)).
Proof.
  intros response env w.
  apply (unexpected_status_asserts env 0 (example_session true)
           example_request None 3 w response); try reflexivity.
  cbn. lia.
Defined.

(** The statuses the pipeline knows: the fatal ones, 204, and the
    successes.  While every response has a known status, no call raises
    the assertion error, whatever the fuel and the state it starts in. *)
Lemma assertion_unreachable env self req :
  (∀ k response, transport env k = Responded response →
     is_Some (STATUS_EXCEPTIONS !! status_code response)
     ∨ status_code response = 204%Z
     ∨ status_code response ∈ SUCCESS_STATUSES) →
  ∀ fuel st w s,
    (_request_with_retries env fuel self req st w).1 ≠ Raise (AssertionError s).
Proof.
  intros Hknown. induction fuel as [|fuel IH]; intros st w s; [done|].
  destruct (strategy_dec (heap w !! default (_retry_strategy self) st))
    as [[r H]|H].
  2: { by rewrite _request_with_retries_unfold_fail. }
  rewrite (_request_with_retries_unfold _ _ _ _ _ r) by done. cbv zeta.
  destruct (transport env (n_calls w)) as [response|e|e] eqn:Ht.
  - destruct (_ && _); [apply IH|].
    rewrite settle_run.
    destruct (STATUS_EXCEPTIONS !! status_code response) eqn:E; [done|].
    destruct (Hknown _ _ Ht) as [[? ?]|[Hs|Hs]]; [congruence| |].
    + by rewrite bool_decide_eq_true_2.
    + case_bool_decide; [done|]. rewrite bool_decide_eq_true_2 by done.
      case_bool_decide; [done|]. by destruct (json_result response).
  - by destruct (_ && _); [apply IH|].
  - done.
Qed.

(** * Transport exceptions *)

(** C8.  When the transport call of an attempt raises a
    [RequestException] whose original exception is not an instance of a
    class in [RETRY_EXCEPTIONS], or when [should_retry_on_failure] is
    false, [_make_request] re-raises that very exception, and so does
    [_request_with_retries], after this one transport call. *)
Theorem transport_exception_propagates env fuel self req st r w e :
  heap w !! default (_retry_strategy self) st = Some (OStrategy r) →
  transport env (n_calls w) = Failed e →
  isinstance (original_exception e) RETRY_EXCEPTIONS = false
  ∨ ¬ (r - 1 > 0)%Z →
  let w0 := slept_world env r w in
  let w1 := logged (log_request_events req w0) w0 in
  _make_request env self req (bool_decide (r - 1 > 0)%Z) w1
    = (Raise (RequestFailed e), attempted env self req r w)
  ∧ _request_with_retries env (S fuel) self req st w
    = (Raise (RequestFailed e), attempted env self req r w)
  ∧ n_calls (attempted env self req r w) = S (n_calls w).
Proof.
  intros H Ht Hno. cbv zeta.
  assert (Hc : bool_decide (r - 1 > 0)%Z
               && isinstance (original_exception e) RETRY_EXCEPTIONS = false).
  { destruct Hno as [-> | ?]; [apply andb_false_r|].
    by rewrite bool_decide_eq_false_2. }
  split; [|split].
  - rewrite _make_request_run.
    change (n_calls (logged _ _)) with (n_calls w). rewrite Ht.
    rewrite <- negb_andb, Hc. done.
  - rewrite (_request_with_retries_unfold _ _ _ _ _ r) by done. cbv zeta.
    by rewrite Ht, Hc.
  - apply n_calls_attempted.
Qed.

Lemma transport_exception_propagates_witness :
  let e := {| original_exception :=
                {| exc_mro := ["TooManyRedirects"; "RequestException";
                               "IOError"; "Exception"];
                   exc_args := "30 redirects" |};
              request_args := "get" |} in
  let env := env_of (1#2) [Failed e] in
  let w := world_of (example_heap 3) in
  let w0 := slept_world env 3 w in
  let w1 := logged (log_request_events example_request w0) w0 in
  let w2 := attempted env (example_session true) example_request 3 w in
  _make_request env (example_session true) example_request
      (bool_decide (3 - 1 > 0)%Z) w1 = (Raise (RequestFailed e), w2)
  ∧ _request_with_retries env 1 (example_session true) example_request None w
    = (Raise (RequestFailed e), w2)
  ∧ n_calls w2 = 1.
Proof.
  intros e env w.
  apply (transport_exception_propagates env 0 (example_session true)
           example_request None 3 w e); [reflexivity..|].
  left. reflexivity.
Defined.

(** * Immutability of the retry strategy *)

(** Started on a strategy with [r >= 1] retries, the loop allocates
    strategy objects only, each with fewer retries and none below zero. *)
Lemma _request_with_retries_strategies env self req fuel : ∀ st r w,
  heap w !! default (_retry_strategy self) st = Some (OStrategy r) →
  (1 ≤ r)%Z →
  ∃ ext,
    heap (_request_with_retries env fuel self req st w).2 = heap w ++ ext
    ∧ Forall (λ o, ∃ r', o = OStrategy r' ∧ (0 ≤ r' < r)%Z) ext.
Proof.
  induction fuel as [|fuel IH]; intros st r w H Hr.
  { exists []. by rewrite app_nil_r. }
  rewrite (_request_with_retries_unfold _ _ _ _ _ r) by done. cbv zeta.
  assert (Hone : Forall (λ o, ∃ r', o = OStrategy r' ∧ (0 ≤ r' < r)%Z)
                        [OStrategy (r - 1)]).
  { repeat constructor. eexists. split; [done|lia]. }
  assert (Hdone : ∀ w1 : World, heap w1 = heap w ++ [OStrategy (r - 1)] →
            ∃ ext, heap w1 = heap w ++ ext
                   ∧ Forall (λ o, ∃ r', o = OStrategy r' ∧ (0 ≤ r' < r)%Z) ext)
    by eauto.
  assert (Hstep : ∀ w1 : World, heap w1 = heap w ++ [OStrategy (r - 1)] →
            bool_decide (r - 1 > 0)%Z = true →
            ∃ ext,
              heap (_request_with_retries env fuel self req
                      (Some (length (heap w))) w1).2 = heap w ++ ext
              ∧ Forall (λ o, ∃ r', o = OStrategy r' ∧ (0 ≤ r' < r)%Z) ext).
  { intros w1 Hh Hsr. apply bool_decide_eq_true_1 in Hsr.
    destruct (IH (Some (length (heap w))) (r - 1)%Z w1) as (ext & -> & Hext).
    - cbn. by rewrite Hh, lookup_app_r, Nat.sub_diag.
    - lia.
    - rewrite Hh, <- app_assoc. eexists. split; [done|].
      apply Forall_app. split; [done|].
      eapply Forall_impl; [done|]. intros o (r' & -> & ?).
      eexists. split; [done|lia]. }
  destruct (transport env (n_calls w)) as [response|e|e].
  - set (w3 := if bool_decide (status_code response = 401%Z) then _ else _).
    assert (H3 : heap w3 = heap w ++ [OStrategy (r - 1)]).
    { unfold w3. destruct (bool_decide (status_code response = 401%Z));
        by autorewrite with world. }
    destruct (bool_decide (r - 1 > 0)%Z) eqn:Hsr; cbn [andb].
    + destruct (_ || _).
      * by apply Hstep.
      * destruct (settle_frame (Some response) w3) as (Hh & _).
        apply Hdone. by rewrite Hh.
    + destruct (settle_frame (Some response) w3) as (Hh & _).
      apply Hdone. by rewrite Hh.
  - destruct (bool_decide (r - 1 > 0)%Z) eqn:Hsr; cbn [andb].
    + destruct (isinstance _ _).
      * apply Hstep; [|done]. by autorewrite with world.
      * apply Hdone. cbn [snd]. by autorewrite with world.
    + apply Hdone. cbn [snd]. by autorewrite with world.
  - apply Hdone. cbn [snd]. by autorewrite with world.
Qed.

(** A session starts with a strategy of three retries. *)
Lemma Session_init_run has_refresh w :
  Session_init (Authorizer has_refresh) w =
    (Ok {| _authorizer_has_refresh := has_refresh;
           _retry_strategy := length (heap w) |},
     with_heap (heap w ++ [OStrategy 3]) w).
Proof. reflexivity. Qed.

(** C9.  [sleep] on a strategy with [r] retries gives the same new state
    and flag whatever the random draws and the rest of the world are; the
    new state is a fresh object with [r - 1] retries, and every object
    that existed before, the old state among them, is left as it was, so
    that a second [sleep] on the old state gives another object with
    [r - 1] retries and the same flag.  From a strategy with at least one
    retry (a session starts with three) no strategy object created by
    [_request_with_retries] has a negative number of retries. *)
Theorem retry_strategy_is_immutable env env' self r w w' :
  heap w !! self = Some (OStrategy r) →
  heap w' = heap w →
  (sleep env' self w').1 = (sleep env self w).1
  ∧ (∃ new_state,
       (sleep env self w).1 = Ok (new_state, bool_decide (r - 1 > 0)%Z)
       ∧ heap w !! new_state = None
       ∧ heap (sleep env self w).2 !! new_state = Some (OStrategy (r - 1))
       ∧ heap (sleep env self w).2 !! self = Some (OStrategy r)
       ∧ ∀ l o, heap w !! l = Some o → heap (sleep env self w).2 !! l = Some o)
  ∧ (∃ first second after,
       (sleep env self w).1 = Ok (first, bool_decide (r - 1 > 0)%Z)
       ∧ sleep env' self (sleep env self w).2
         = (Ok (second, bool_decide (r - 1 > 0)%Z), after)
       ∧ first ≠ second
       ∧ heap after !! first = Some (OStrategy (r - 1))
       ∧ heap after !! second = Some (OStrategy (r - 1))
       ∧ heap after !! self = Some (OStrategy r))
  ∧ ∀ fuel session req,
      _retry_strategy session = self →
      (1 ≤ r)%Z →
      ∀ l r',
        heap (_request_with_retries env fuel session req None w).2 !! l
          = Some (OStrategy r') →
        heap w !! l = Some (OStrategy r') ∨ (0 ≤ r' < r)%Z.
Proof.
  intros H Hw'. split; [|split; [|split]].
  - rewrite (sleep_run env _ r), (sleep_run env' _ r) by by rewrite ?Hw'.
    by rewrite Hw'.
  - exists (length (heap w)). rewrite (sleep_run env _ r) by done.
    cbn [fst snd slept_world heap].
    split; [done|]. split; [by apply lookup_ge_None_2|].
    split; [by rewrite lookup_app_r, Nat.sub_diag|].
    split; [by apply lookup_app_l_Some|].
    intros l o. apply lookup_app_l_Some.
  - rewrite (sleep_run env _ r) by done. cbn [fst snd].
    assert (H1 : heap (slept_world env r w) !! self = Some (OStrategy r))
      by by apply lookup_app_l_Some.
    rewrite (sleep_run env' _ r _ H1).
    eexists _, _, _. split; [done|]. split; [done|].
    cbn [slept_world heap]. rewrite length_app. cbn [length].
    split; [lia|]. split; [|split].
    + apply lookup_app_l_Some, lookup_fresh.
    + replace (length (heap w) + 1)%nat
        with (length (heap w ++ [OStrategy (r - 1)]))
        by (rewrite length_app; done).
      apply lookup_fresh.
    + by do 2 apply lookup_app_l_Some.
  - intros fuel session req Hs Hr l r' Hl.
    destruct (_request_with_retries_strategies env session req fuel None r w)
      as (ext & Hext & Hall); [by rewrite <- Hs in H|done|].
    rewrite Hext in Hl. apply lookup_app_Some in Hl as [Hl|[_ Hl]].
    + by left.
    + right. rewrite Forall_lookup in Hall.
      destruct (Hall _ _ Hl) as (r'' & [= <-] & ?). done.
Qed.

Lemma retry_strategy_is_immutable_witness :
  let env := env_of (1#2) [Responded (response_of 503 None None)] in
  let env' := env_of (1#3) [] in
  let w := world_of (example_heap 2) in
  let w' := logged [EvRefresh] (world_of (example_heap 2)) in
  (sleep env' 1 w').1 = (sleep env 1 w).1
  ∧ (∃ new_state,
       (sleep env 1 w).1 = Ok (new_state, bool_decide (2 - 1 > 0)%Z)
       ∧ heap w !! new_state = None
       ∧ heap (sleep env 1 w).2 !! new_state = Some (OStrategy (2 - 1))
       ∧ heap (sleep env 1 w).2 !! 1 = Some (OStrategy 2)
       ∧ ∀ l o, heap w !! l = Some o → heap (sleep env 1 w).2 !! l = Some o)
  ∧ (∃ first second after,
       (sleep env 1 w).1 = Ok (first, bool_decide (2 - 1 > 0)%Z)
       ∧ sleep env' 1 (sleep env 1 w).2
         = (Ok (second, bool_decide (2 - 1 > 0)%Z), after)
       ∧ first ≠ second
       ∧ heap after !! first = Some (OStrategy (2 - 1))
       ∧ heap after !! second = Some (OStrategy (2 - 1))
       ∧ heap after !! 1 = Some (OStrategy 2))
  ∧ ∀ fuel session req,
      _retry_strategy session = 1 →
      (1 ≤ 2)%Z →
      ∀ l r',
        heap (_request_with_retries env fuel session req None w).2 !! l
          = Some (OStrategy r') →
        heap w !! l = Some (OStrategy r') ∨ (0 ≤ r' < 2)%Z.
Proof.
  intros env env' w w'.
  apply (retry_strategy_is_immutable env env' 1 2 w w'); reflexivity.
Defined.

(** * Normalisation of the request *)

Lemma deepcopy_run l o w :
  heap w !! l = Some o →
  deepcopy (Some l) w =
    (Ok (Some (length (heap w))), with_heap (heap w ++ [o]) w).
Proof. intros H. unfold deepcopy. unfold_monad. by rewrite H. Qed.

Lemma setitem_run d k v items w :
  heap w !! d = Some (ODict items) →
  setitem d k v w =
    (Ok (), with_heap (<[d:=ODict (<[k:=v]> items)]> (heap w)) w).
Proof. intros H. unfold setitem. unfold_monad. by rewrite H. Qed.

Lemma deref_run l w : deref l w = (Ok (heap w !! l), w).
Proof. done. Qed.

Lemma heap_with_heap h w : heap (with_heap h w) = h.
Proof. done. Qed.

Lemma with_heap_with_heap h h' w :
  with_heap h (with_heap h' w) = with_heap h w.
Proof. done. Qed.

(** [request] copies, marks and sorts, and then enters the retry loop in a
    world that differs from the caller's by new heap objects only. *)
Lemma request_run env fuel self method path data files json params w :
  params_ok (heap w) params →
  data_ok (heap w) data →
  ∃ p' ext,
    request env fuel self method path data files json params w =
      _request_with_retries env fuel self
        {| data := transmitted_data (heap w) data; files := files;
           json := json; method := method; params := p';
           url := urljoin env (oauth_url env) path |}
        None (with_heap (heap w ++ ext) w)
    ∧ (heap w ++ ext) !! p' =
        Some (ODict (<["raw_json":=PInt 1]> (params_items (heap w) params)))
    ∧ (length (heap w) ≤ p')%nat.
Proof.
  intros Hp Hd.
  (* the [params] phase *)
  assert (Hparams : ∃ p' ext1,
    (∀ k : loc → M pyval,
      ((copied ← deepcopy params;
        keep ← truthy copied;
        params ← (if keep : bool return M (option loc) then mret copied
                  else l ← alloc (ODict ∅); mret (Some l));
        params ← match params return M loc with
                 | Some l => mret l
                 | None => raise TypeError
                 end;
        setitem params "raw_json" (PInt 1);;
        k params) w)
      = k p' (with_heap (heap w ++ ext1) w))
    ∧ (heap w ++ ext1) !! p' =
        Some (ODict (<["raw_json":=PInt 1]> (params_items (heap w) params)))
    ∧ (length (heap w) ≤ p')%nat).
  { destruct w as [h tok tr nr nc nf]. cbn [heap] in *.
    unfold deepcopy, truthy, setitem. unfold_monad. cbn [heap].
    destruct params as [lp|]; cbn in Hp.
    - destruct Hp as [items Hp]. cbn [params_items]. rewrite Hp.
      destruct (decide (items = ∅)) as [->|Hne].
      + exists (length (h ++ [ODict ∅])),
          [ODict ∅; ODict (<["raw_json":=PInt 1]> ∅)].
        split; [|split].
        * intros k.
          repeat first [rewrite Hp | rewrite lookup_fresh | rewrite insert_fresh
                       | progress cbn].
          rewrite bool_decide_eq_false_2 by (intros Hx; by apply Hx).
          repeat first [rewrite lookup_fresh | rewrite insert_fresh
                       | progress cbn].
          by rewrite <- app_assoc.
        * replace (h ++ [ODict ∅; ODict (<["raw_json":=PInt 1]> ∅)])
            with ((h ++ [ODict ∅]) ++ [ODict (<["raw_json":=PInt 1]> ∅)])
            by (by rewrite <- app_assoc).
          by rewrite lookup_fresh.
        * rewrite length_app. lia.
      + exists (length h), [ODict (<["raw_json":=PInt 1]> items)].
        split; [|split; [by rewrite lookup_fresh|done]].
        intros k.
        repeat first [rewrite Hp | rewrite lookup_fresh | rewrite insert_fresh
                     | progress cbn].
        rewrite bool_decide_eq_true_2 by done.
        repeat first [rewrite Hp | rewrite lookup_fresh | rewrite insert_fresh
                     | progress cbn].
        done.
    - exists (length h), [ODict (<["raw_json":=PInt 1]> ∅)].
      split; [|split; [by rewrite lookup_fresh|done]].
      intros k.
      repeat first [rewrite lookup_fresh | rewrite insert_fresh
                   | progress cbn].
      done. }
  destruct Hparams as (p' & ext1 & Hrun & Hlook & Hle).
  unfold request. rewrite Hrun. clear Hrun.
  assert (Hplain : ∀ d : pydata, transmitted_data (heap w) data = d →
    ∃ p'0 ext,
      ((mret d : M pydata) ≫= λ data0,
         _request_with_retries env fuel self
           {| data := data0; files := files; json := json; method := method;
              params := p'; url := urljoin env (oauth_url env) path |} None)
        (with_heap (heap w ++ ext1) w)
      = _request_with_retries env fuel self
          {| data := transmitted_data (heap w) data; files := files;
             json := json; method := method; params := p'0;
             url := urljoin env (oauth_url env) path |}
          None (with_heap (heap w ++ ext) w)
      ∧ (heap w ++ ext) !! p'0 =
          Some (ODict (<["raw_json":=PInt 1]> (params_items (heap w) params)))
      ∧ (length (heap w) ≤ p'0)%nat).
  { intros d <-. by exists p', ext1. }
  destruct data as [|bytes|l|items]; try by apply Hplain.
  cbn in Hd. destruct Hd as [o Ho].
  assert (Ho1 : (heap w ++ ext1) !! l = Some o) by by apply lookup_app_l_Some.
  rewrite !bind_run, deref_run, heap_with_heap, Ho1.
  destruct o as [r|items].
  { apply Hplain. cbn. by rewrite Ho. }
  rewrite bind_run,
    (deepcopy_run l (ODict items) (with_heap (heap w ++ ext1) w) Ho1).
  rewrite bind_run, (setitem_run _ _ _ items)
    by (rewrite !heap_with_heap; apply lookup_fresh).
  rewrite !heap_with_heap, insert_fresh, with_heap_with_heap.
  rewrite bind_run, deref_run, heap_with_heap, lookup_fresh.
  exists p', (ext1 ++ [ODict (<["api_type":=PStr "json"]> items)]).
  rewrite app_assoc. split; [|split; [|done]].
  - cbn [transmitted_data]. by rewrite Ho.
  - by apply lookup_app_l_Some.
Qed.

#[global] Instance item_le_trans : Transitive item_le.
Proof. intros p q r. unfold item_le. apply transitivity. Qed.

#[global] Instance item_le_total : Total item_le.
Proof. intros p q. unfold item_le. apply total, _. Qed.

(** [sorted(d.items())] is the items of [d] in the order of their keys. *)
Lemma sorted_items_spec (items : gmap string pyval) :
  StronglySorted item_le (sorted_items items)
  ∧ NoDup (sorted_items items).*1
  ∧ ∀ k v, (k, v) ∈ sorted_items items ↔ items !! k = Some v.
Proof.
  unfold sorted_items. split; [|split].
  - apply StronglySorted_merge_sort; apply _.
  - rewrite merge_sort_Permutation. apply NoDup_fst_map_to_list.
  - intros k v. rewrite merge_sort_Permutation. apply elem_of_map_to_list.
Qed.

(** The scenario of the specification: the fields [b: 2] and [a: 1]. *)
Example sorted_items_b_a :
  sorted_items (<["api_type":=PStr "json"]> {[ "b" := PInt 2; "a" := PInt 1 ]})
  = [("a", PInt 1); ("api_type", PStr "json"); ("b", PInt 2)].
Proof. reflexivity. Qed.

Lemma _request_with_retries_calls_once env self req fuel st r w :
  heap w !! default (_retry_strategy self) st = Some (OStrategy r) →
  (n_calls w < n_calls (_request_with_retries env (S fuel) self req st w).2)%nat.
Proof.
  intros H.
  rewrite (_request_with_retries_unfold _ _ _ _ _ r) by done. cbv zeta.
  destruct (transport env (n_calls w)) as [response|e|e].
  - destruct (_ && _).
    + eapply Nat.lt_le_trans; [|apply _request_with_retries_n_calls].
      destruct (bool_decide _); autorewrite with world; lia.
    + destruct (settle_frame (Some response)
        (if bool_decide (status_code response = 401%Z)
         then cleared_world (response_logged response
                               (attempted env self req r w))
         else response_logged response (attempted env self req r w)))
        as (_ & -> & _).
      destruct (bool_decide _); autorewrite with world; lia.
  - destruct (_ && _).
    + eapply Nat.lt_le_trans; [|apply _request_with_retries_n_calls].
      autorewrite with world. lia.
    + cbn [snd]. autorewrite with world. lia.
  - cbn [snd]. autorewrite with world. lia.
Qed.

(** C6.  Every transport call of [request] carries query parameters that
    are the caller's with [raw_json] set to 1.  When [data] is a dict, every
    call carries as its body the fields of the caller with [api_type] set
    to "json", as a list of pairs in the order of their keys.  A call is
    made whenever the session has its strategy and there is fuel. *)
Theorem request_marks_and_sorts env fuel self method path caller_data files
    json caller_params w :
  params_ok (heap w) caller_params →
  data_ok (heap w) caller_data →
  let w' := (request env fuel self method path caller_data files json
               caller_params w).2 in
  ∃ req query,
    call_events (trace w') =
      call_events (trace w)
      ++ replicate (n_calls w' - n_calls w) (req, Some (ODict query))
    ∧ query = <["raw_json":=PInt 1]> (params_items (heap w) caller_params)
    ∧ query !! "raw_json" = Some (PInt 1)
    ∧ (∀ l items, caller_data = DDict l → heap w !! l = Some (ODict items) →
         ∃ fields,
           data req = DItems fields
           ∧ StronglySorted item_le fields
           ∧ NoDup fields.*1
           ∧ ∀ k v, (k, v) ∈ fields ↔
                      <["api_type":=PStr "json"]> items !! k = Some v)
    ∧ (∀ r, heap w !! _retry_strategy self = Some (OStrategy r) →
         (0 < fuel)%nat → (n_calls w < n_calls w')%nat).
Proof.
  intros Hp Hd. cbv zeta.
  destruct (request_run env fuel self method path caller_data files json
              caller_params w Hp Hd) as (p' & ext & -> & Hlook & Hle).
  set (req := {| data := transmitted_data (heap w) caller_data; files := files;
                 json := json; method := method; params := p';
                 url := urljoin env (oauth_url env) path |}).
  set (w1 := with_heap (heap w ++ ext) w).
  exists req, (<["raw_json":=PInt 1]> (params_items (heap w) caller_params)).
  destruct (_request_with_retries_calls env self req fuel None w1)
    as [_ Hc].
  { change (is_Some ((heap w ++ ext) !! p')). by rewrite Hlook. }
  change (heap w1 !! params req) with ((heap w ++ ext) !! p') in Hc.
  rewrite Hlook in Hc.
  split; [exact Hc|].
  split; [done|]. split; [apply lookup_insert_eq|]. split.
  - intros l items -> Hl. cbn. rewrite Hl.
    eexists. split; [done|]. apply sorted_items_spec.
  - intros r Hr Hfuel. destruct fuel as [|fuel]; [lia|].
    apply (_request_with_retries_calls_once env self req fuel None r w1).
    by apply lookup_app_l_Some.
Qed.

Lemma request_marks_and_sorts_witness :
  let env := env_of (1#2) [Responded (response_of 503 None None)] in
  let w := world_of [ODict {[ "b" := PInt 2; "a" := PInt 1 ]};
                     OStrategy 3;
                     ODict {[ "limit" := PInt 10 ]}] in
  let w' := (request env 3 (example_session true) "post" "/api/submit"
               (DDict 0) None None (Some 2) w).2 in
  ∃ req query,
    call_events (trace w') =
      call_events (trace w)
      ++ replicate (n_calls w' - n_calls w) (req, Some (ODict query))
    ∧ query = <["raw_json":=PInt 1]> (params_items (heap w) (Some 2))
    ∧ query !! "raw_json" = Some (PInt 1)
    ∧ (∀ l items, DDict 0 = DDict l → heap w !! l = Some (ODict items) →
         ∃ fields,
           data req = DItems fields
           ∧ StronglySorted item_le fields
           ∧ NoDup fields.*1
           ∧ ∀ k v, (k, v) ∈ fields ↔
                      <["api_type":=PStr "json"]> items !! k = Some v)
    ∧ (∀ r, heap w !! _retry_strategy (example_session true)
              = Some (OStrategy r) →
         (0 < 3)%nat → (n_calls w < n_calls w')%nat).
Proof.
  intros env w.
  apply (request_marks_and_sorts env 3 (example_session true) "post"
           "/api/submit" (DDict 0) None None (Some 2) w).
  - eexists. reflexivity.
  - eexists. reflexivity.
Defined.

(** * The caller's objects *)

Lemma triple_bind {A B} h0 (m : M A) (f : A → M B) Q Q' :
  triple h0 m Q → (∀ a, Q a → triple h0 (f a) Q') → triple h0 (m ≫= f) Q'.
Proof.
  intros Hm Hf w Hw. rewrite bind_run.
  destruct (Hm w Hw) as [Hw' Ha].
  destruct (m w) as [[a|e|] w']; cbn in *; [|done..].
  by apply Hf; [apply Ha|].
Qed.

Lemma triple_ret {A} h0 (a : A) (Q : A → Prop) : Q a → triple h0 (mret a) Q.
Proof. intros Ha w Hw. split; [done|]. by intros ? [= <-]. Qed.

Lemma triple_raise {A} h0 e (Q : A → Prop) : triple h0 (raise e) Q.
Proof. by intros w Hw. Qed.

Lemma triple_deref h0 l : triple h0 (deref l) (λ _, True).
Proof. by intros w Hw. Qed.

Lemma triple_alloc h0 o : triple h0 (alloc o) (λ l, (length h0 ≤ l)%nat).
Proof.
  intros w Hw. split.
  - cbn. by apply prefix_app_r.
  - intros a [= <-]. by apply prefix_length.
Qed.

Lemma triple_store h0 l o :
  (length h0 ≤ l)%nat → triple h0 (store l o) (λ _, True).
Proof.
  intros Hl w [k Hw]. split; [|done]. cbn. rewrite Hw.
  rewrite insert_app_r_alt by done. by apply prefix_app_r.
Qed.

Lemma triple_deepcopy h0 v :
  triple h0 (deepcopy v) (λ c, ∀ l, c = Some l → (length h0 ≤ l)%nat).
Proof.
  destruct v as [l|]; [|by apply triple_ret].
  eapply triple_bind; [apply triple_deref|]. intros [o|] _.
  - eapply triple_bind; [apply triple_alloc|]. intros l' Hl'.
    apply triple_ret. by intros ? [= <-].
  - apply triple_raise.
Qed.

Lemma triple_truthy h0 v : triple h0 (truthy v) (λ _, True).
Proof.
  destruct v as [l|]; [|by apply triple_ret].
  eapply triple_bind; [apply triple_deref|]. intros [[r|items]|] _;
    by apply triple_ret.
Qed.

Lemma triple_setitem h0 d k v :
  (length h0 ≤ d)%nat → triple h0 (setitem d k v) (λ _, True).
Proof.
  intros Hd. eapply triple_bind; [apply triple_deref|].
  intros [[r|items]|] _; try apply triple_raise. by apply triple_store.
Qed.

Lemma triple__request_with_retries h0 env fuel self req st :
  triple h0 (_request_with_retries env fuel self req st) (λ _, True).
Proof.
  intros w Hw. split; [|done].
  destruct (_request_with_retries_heap env self req fuel st w)
    as (ext & -> & _).
  by apply prefix_app_r.
Qed.

Lemma triple_request h0 env fuel self method path data files json params :
  triple h0 (request env fuel self method path data files json params)
         (λ _, True).
Proof.
  unfold request.
  eapply triple_bind; [apply triple_deepcopy|]. intros copied Hcopied.
  eapply triple_bind; [apply triple_truthy|]. intros keep _.
  eapply triple_bind with (Q := λ c, ∀ l, c = Some l → (length h0 ≤ l)%nat).
  { destruct keep; [by apply triple_ret|].
    eapply triple_bind; [apply triple_alloc|]. intros l Hl.
    apply triple_ret. by intros ? [= <-]. }
  intros p Hp.
  eapply triple_bind with (Q := λ l, (length h0 ≤ l)%nat).
  { destruct p as [l|]; [|apply triple_raise]. apply triple_ret. by apply Hp. }
  intros p' Hp'.
  eapply triple_bind; [by apply triple_setitem|]. intros _ _.
  eapply triple_bind with (Q := λ _, True);
    [|intros; apply triple__request_with_retries].
  destruct data as [|bytes|l|items]; try by apply triple_ret.
  eapply triple_bind; [apply triple_deref|]. intros [[r|items]|] _;
    try by apply triple_ret.
  eapply triple_bind; [apply triple_deepcopy|]. intros [l'|] Hl';
    [|apply triple_raise].
  eapply triple_bind; [apply triple_setitem; by apply Hl'|]. intros _ _.
  eapply triple_bind; [apply triple_deref|]. intros [[r|items']|] _;
    try apply triple_raise.
  by apply triple_ret.
Qed.

(** C10.  However [request] ends, the heap after the call is the heap
    before it followed by new objects: the dicts the caller passed as
    [params] and [data] are as they were, without the [raw_json] and
    [api_type] entries.  The query parameters that carry [raw_json] are an
    object that did not exist before the call. *)
Theorem request_leaves_caller_objects env fuel self method path caller_data
    files json caller_params w :
  let w' := (request env fuel self method path caller_data files json
               caller_params w).2 in
  heap w `prefix_of` heap w'
  ∧ (∀ l items, caller_params = Some l → heap w !! l = Some (ODict items) →
       heap w' !! l = Some (ODict items))
  ∧ (∀ l items, caller_data = DDict l → heap w !! l = Some (ODict items) →
       heap w' !! l = Some (ODict items))
  ∧ (params_ok (heap w) caller_params → data_ok (heap w) caller_data →
     ∃ req,
       call_events (trace w') =
         call_events (trace w)
         ++ replicate (n_calls w' - n_calls w)
              (req, Some (ODict (<["raw_json":=PInt 1]>
                                   (params_items (heap w) caller_params))))
       ∧ (length (heap w) ≤ params req)%nat
       ∧ heap w !! params req = None).
Proof.
  cbv zeta.
  destruct (triple_request (heap w) env fuel self method path caller_data
              files json caller_params w) as [Hpre _]; [done|].
  split; [done|].
  split; [intros l items _ Hl; by eapply prefix_lookup_Some|].
  split; [intros l items _ Hl; by eapply prefix_lookup_Some|].
  intros Hp Hd.
  destruct (request_run env fuel self method path caller_data files json
              caller_params w Hp Hd) as (p' & ext & -> & Hlook & Hle).
  set (req := {| data := transmitted_data (heap w) caller_data;
                 files := files; json := json; method := method;
                 params := p'; url := urljoin env (oauth_url env) path |}).
  set (w1 := with_heap (heap w ++ ext) w).
  exists req.
  destruct (_request_with_retries_calls env self req fuel None w1)
    as [_ Hc].
  { change (is_Some ((heap w ++ ext) !! p')). by rewrite Hlook. }
  change (heap w1 !! params req) with ((heap w ++ ext) !! p') in Hc.
  rewrite Hlook in Hc.
  split; [exact Hc|]. split; [done|]. by apply lookup_ge_None_2.
Qed.

Lemma request_leaves_caller_objects_witness :
  let env := env_of (1#2) [Responded (response_of 503 None None)] in
  let w := world_of [ODict {[ "b" := PInt 2; "a" := PInt 1 ]};
                     OStrategy 3;
                     ODict {[ "limit" := PInt 10 ]}] in
  let w' := (request env 3 (example_session true) "post" "/api/submit"
               (DDict 0) None None (Some 2) w).2 in
  heap w' !! 2 = Some (ODict {[ "limit" := PInt 10 ]})
  ∧ heap w' !! 0 = Some (ODict {[ "b" := PInt 2; "a" := PInt 1 ]})
  ∧ ∃ req,
      call_events (trace w') =
        call_events (trace w)
        ++ replicate (n_calls w' - n_calls w)
             (req, Some (ODict (<["raw_json":=PInt 1]>
                                  (params_items (heap w) (Some 2)))))
      ∧ (length (heap w) ≤ params req)%nat
      ∧ heap w !! params req = None.
Proof.
  intros env w.
  destruct (request_leaves_caller_objects env 3 (example_session true) "post"
              "/api/submit" (DDict 0) None None (Some 2) w)
    as (_ & Hparams & Hdata & Hcalls).
  split; [by apply Hparams|]. split; [by apply Hdata|].
  apply Hcalls.
  - eexists. reflexivity.
  - eexists. reflexivity.
Defined.

(** * Scenarios *)

(** Three retries, two responses with status 503 and then a 200 with a JSON
    body: three transport calls, no sleep before the first, a sleep of
    [0 + 2u] before the second and of [2 + 2u] before the third, and the
    decoded body as the result. *)
Example two_failures_then_success :
  let ok := PMap [("ok", PBool true)] in
  let env := env_of (1#2) [Responded (response_of 503 None None);
                           Responded (response_of 503 None None);
                           Responded (response_of 200 None (Some ok))] in
  let run := _request_with_retries env 3 (example_session true)
               example_request None (world_of (example_heap 3)) in
  run.1 = Ok ok
  ∧ n_calls run.2 = 3
  ∧ slept (trace run.2) = [(0 + 2 * (1#2))%Q; (2 + 2 * (1#2))%Q]
  ∧ heap run.2 = example_heap 3 ++ [OStrategy 2; OStrategy 1; OStrategy 0].
Proof. repeat split; reflexivity. Qed.

(** A session made by [Session] has three attempts, and a caller's dict
    keeps its entries: [request] on a fresh session, with every answer a
    502, calls the transport three times and raises [ServerError]. *)
Example fresh_session_three_attempts :
  let env := env_of (1#2) (replicate 5 (Responded (response_of 502 None None))) in
  let w := world_of [ODict {[ "b" := PInt 2; "a" := PInt 1 ]}] in
  let run := (self ← Session_init (Authorizer false);
              request env 5 self "post" "/api/submit" (DDict 0) None None
                      None) w in
  run.1 = Raise (Raised ServerError (response_of 502 None None))
  ∧ n_calls run.2 = 3
  ∧ heap run.2 !! 0 = Some (ODict {[ "b" := PInt 2; "a" := PInt 1 ]})
  ∧ (data <$> (fst <$> call_events (trace run.2))) =
      replicate 3 (DItems [("a", PInt 1); ("api_type", PStr "json");
                           ("b", PInt 2)]).
Proof. repeat split; reflexivity. Qed.

(** Anything that is not an authorizer is refused. *)
Example session_needs_an_authorizer w :
  session (NotAuthorizer "None") w
  = (Raise (InvalidInvocation "invalid Authorizer: None"), w).
Proof. reflexivity. Qed.

(** * The retry loop, whatever the outcomes *)

(** With fuel for its retries, [_request_with_retries] ends as the relation
    [attempts] says. *)
Lemma _request_with_retries_attempts env self req fuel : ∀ st r w,
  heap w !! default (_retry_strategy self) st = Some (OStrategy r) →
  (Z.to_nat r ≤ fuel)%nat → (1 ≤ fuel)%nat →
  attempts env self req r w (_request_with_retries env fuel self req st w).
Proof.
  induction fuel as [|fuel IH]; intros st r w H Hr Hfuel; [lia|].
  rewrite (_request_with_retries_unfold _ _ _ _ _ r) by done. cbv zeta.
  assert (Hnext : bool_decide (r - 1 > 0)%Z = true →
            (Z.to_nat (r - 1) ≤ fuel)%nat ∧ (1 ≤ fuel)%nat).
  { intros Hsr%bool_decide_eq_true_1. lia. }
  destruct (transport env (n_calls w)) as [response|e|e] eqn:Ht.
  - fold (answered env self req r w response). fold (retried self r response).
    destruct (retried self r response) eqn:Hre.
    + eapply attempts_again; [done..|].
      apply andb_true_iff in Hre as [Hsr _].
      apply IH; [|by apply Hnext..].
      unfold answered.
      destruct (bool_decide (status_code response = 401%Z));
        autorewrite with world; apply lookup_fresh.
    + by apply attempts_settled.
  - destruct (_ && _) eqn:Hre.
    + eapply attempts_failed_again; [done..|].
      apply andb_true_iff in Hre as [Hsr _].
      apply IH; [|by apply Hnext..].
      autorewrite with world. apply lookup_fresh.
    + by apply attempts_failed.
  - by apply attempts_crashed.
Qed.

(** [settle] leaves the world as it is or adds the decoding to its trace. *)
Lemma settle_world response w :
  (settle response w).2 = w
  ∨ ∃ r, (settle response w).2 = logged [EvJsonDecode r] w.
Proof.
  destruct response as [response|]; [|by left].
  rewrite settle_run.
  destruct (STATUS_EXCEPTIONS !! _); [by left|].
  repeat case_bool_decide; try by left.
  right. by exists response.
Qed.

Lemma settle_result response w :
  (settle (Some response) w).1 = response_result response.
Proof.
  unfold response_result. rewrite !settle_run.
  destruct (STATUS_EXCEPTIONS !! _); [done|].
  by repeat case_bool_decide.
Qed.


Lemma heap_answered env self req r w response :
  heap (answered env self req r w response) = heap w ++ [OStrategy (r - 1)].
Proof.
  unfold answered. destruct (bool_decide _); by autorewrite with world.
Qed.

Lemma n_calls_answered env self req r w response :
  n_calls (answered env self req r w response) = S (n_calls w).
Proof.
  unfold answered. destruct (bool_decide _); by autorewrite with world.
Qed.


Lemma trace_answered env self req r w response :
  trace (answered env self req r w response)
  = trace (attempted env self req r w)
    ++ EvDebug (LogResponse (status_code response)
                            (headers response !! "content-length"))
       :: (if bool_decide (status_code response = 401%Z)
           then [EvClearAccessToken] else []).
Proof.
  unfold answered. destruct (bool_decide _); autorewrite with world;
    by rewrite <- ?app_assoc.
Qed.

(** The events of one attempt up to its transport call. *)
Lemma trace_attempted env self req r w :
  trace (attempted env self req r w)
  = trace w
    ++ sleep_events (random env (n_random w)) r
    ++ log_request_events req (slept_world env r w)
    ++ (if negb (bool_decide (is_Some (access_token w)))
           && _authorizer_has_refresh self
        then [EvRefresh] else [])
    ++ [EvCall req ((heap w ++ [OStrategy (r - 1)]) !! params req)
          (if negb (bool_decide (is_Some (access_token w)))
              && _authorizer_has_refresh self
           then "bearer " +:+ refreshed env (n_refresh w)
           else authorization w)].
Proof.
  unfold attempted, called_world, header_world. cbn.
  destruct (negb _ && _); cbn; by rewrite <- !app_assoc.
Qed.

Lemma warnings_app t1 t2 : warnings (t1 ++ t2) = warnings t1 ++ warnings t2.
Proof. apply omap_app. Qed.

Lemma warnings_sleep_events u r : warnings (sleep_events u r) = [].
Proof. unfold sleep_events. by case_bool_decide. Qed.

Lemma warnings_attempted env self req r w :
  warnings (trace (attempted env self req r w)) = warnings (trace w).
Proof.
  rewrite trace_attempted, !warnings_app, warnings_sleep_events.
  destruct (negb _ && _); cbn; by rewrite app_nil_r.
Qed.

Lemma warnings_answered env self req r w response :
  warnings (trace (answered env self req r w response)) = warnings (trace w).
Proof.
  rewrite trace_answered, warnings_app, warnings_attempted.
  destruct (bool_decide _); cbn; by rewrite app_nil_r.
Qed.



(** Between one and [max 1 r] transport calls. *)
Lemma attempts_calls env self req r w out :
  attempts env self req r w out →
  (n_calls w < n_calls out.2 ≤ n_calls w + Z.to_nat r `max` 1)%nat.
Proof.
  induction 1 as [r w e Ht|r w e Ht Hre|r w e out Ht Hre _ IH
                 |r w response Ht Hre|r w response out Ht Hre _ IH].
  - cbn [snd]. autorewrite with world. lia.
  - cbn [snd]. autorewrite with world. lia.
  - apply andb_true_iff in Hre as [Hsr%bool_decide_eq_true_1 _].
    revert IH. autorewrite with world. lia.
  - destruct (settle_frame (Some response) (answered env self req r w response))
      as (_ & -> & _).
    rewrite n_calls_answered. lia.
  - apply andb_true_iff in Hre as [Hsr%bool_decide_eq_true_1 _].
    revert IH. autorewrite with world. rewrite n_calls_answered. lia.
Qed.

(** One strategy object for each transport call, and no other object. *)
Lemma attempts_heap env self req r w out :
  attempts env self req r w out →
  heap out.2 = heap w ++ consumed r (n_calls out.2 - n_calls w).
Proof.
  induction 1 as [r w e Ht|r w e Ht Hre|r w e out Ht Hre Hout IH
                 |r w response Ht Hre|r w response out Ht Hre Hout IH].
  - cbn [snd]. autorewrite with world.
    by replace (S (n_calls w) - n_calls w)%nat with 1%nat by lia.
  - cbn [snd]. autorewrite with world.
    by replace (S (n_calls w) - n_calls w)%nat with 1%nat by lia.
  - apply attempts_calls in Hout. revert Hout IH. autorewrite with world.
    intros Hout ->.
    replace (n_calls out.2 - n_calls w)%nat
      with (S (n_calls out.2 - S (n_calls w))) by lia.
    by rewrite <- app_assoc.
  - destruct (settle_frame (Some response) (answered env self req r w response))
      as (-> & -> & _).
    rewrite heap_answered, n_calls_answered.
    by replace (S (n_calls w) - n_calls w)%nat with 1%nat by lia.
  - apply attempts_calls in Hout. revert Hout IH. autorewrite with world.
    rewrite heap_answered, n_calls_answered. intros Hout ->.
    replace (n_calls out.2 - n_calls w)%nat
      with (S (n_calls out.2 - S (n_calls w))) by lia.
    by rewrite <- app_assoc.
Qed.

Lemma consumed_length r k : length (consumed r k) = k.
Proof. revert r. induction k as [|k IH]; intros r; cbn; [done|by rewrite IH]. Qed.

Lemma consumed_lookup r k i :
  (i < k)%nat → consumed r k !! i = Some (OStrategy (r - 1 - Z.of_nat i)).
Proof.
  revert r i. induction k as [|k IH]; intros r [|i] Hi; try lia.
  - cbn. do 2 f_equal. lia.
  - cbn. rewrite IH by lia. do 2 f_equal. lia.
Qed.

Lemma settle_trace_warnings response w :
  warnings (trace (settle response w).2) = warnings (trace w).
Proof.
  destruct (settle_world response w) as [->|[r ->]]; [done|].
  rewrite trace_logged, warnings_app. cbn. by rewrite app_nil_r.
Qed.


Lemma settle_n_random response w :
  n_random (settle response w).2 = n_random w.
Proof. by destruct (settle_world response w) as [->|[r ->]]. Qed.

(** One warning for each retry: one fewer than the transport calls. *)
Lemma attempts_warnings env self req r w out :
  attempts env self req r w out →
  ∃ ws,
    warnings (trace out.2) = warnings (trace w) ++ ws
    ∧ S (length ws) = (n_calls out.2 - n_calls w)%nat
    ∧ Forall (λ rec, ∃ status,
                rec = LogRetrying status (method req) (url req)) ws.
Proof.
  induction 1 as [r w e Ht|r w e Ht Hre|r w e out Ht Hre Hout IH
                 |r w response Ht Hre|r w response out Ht Hre Hout IH].
  - exists []. cbn [snd]. rewrite warnings_attempted, app_nil_r.
    autorewrite with world. split; [done|]. split; [cbn; lia|done].
  - exists []. cbn [snd]. rewrite warnings_attempted, app_nil_r.
    autorewrite with world. split; [done|]. split; [cbn; lia|done].
  - destruct IH as (ws & Hw & Hl & Hall). apply attempts_calls in Hout.
    revert Hw Hl Hout. autorewrite with world.
    rewrite warnings_app, warnings_attempted. cbn [warnings omap].
    intros Hw Hl Hout.
    exists (LogRetrying (inl (original_exception e)) (method req) (url req)
            :: ws).
    split; [by rewrite Hw, <- app_assoc|]. split; [cbn; lia|].
    constructor; [by eexists|done].
  - exists [].
    rewrite settle_trace_warnings, warnings_answered, app_nil_r.
    destruct (settle_frame (Some response) (answered env self req r w response))
      as (_ & -> & _).
    rewrite n_calls_answered. split; [done|]. split; [cbn; lia|done].
  - destruct IH as (ws & Hw & Hl & Hall). apply attempts_calls in Hout.
    revert Hw Hl Hout. autorewrite with world.
    rewrite warnings_app, warnings_answered, n_calls_answered.
    cbn [warnings omap]. intros Hw Hl Hout.
    exists (LogRetrying (inr (status_code response)) (method req) (url req)
            :: ws).
    split; [by rewrite Hw, <- app_assoc|]. split; [cbn; lia|].
    constructor; [by eexists|done].
Qed.


(** The result is what the outcome of the last transport call makes it. *)
Lemma attempts_result env self req r w out :
  attempts env self req r w out →
  out.1 = outcome_result (transport env (n_calls out.2 - 1)).
Proof.
  induction 1 as [r w e Ht|r w e Ht Hre|r w e out Ht Hre Hout IH
                 |r w response Ht Hre|r w response out Ht Hre Hout IH];
    try done.
  - cbn [fst snd]. autorewrite with world.
    replace (S (n_calls w) - 1)%nat with (n_calls w) by lia. by rewrite Ht.
  - cbn [fst snd]. autorewrite with world.
    replace (S (n_calls w) - 1)%nat with (n_calls w) by lia. by rewrite Ht.
  - rewrite settle_result.
    destruct (settle_frame (Some response) (answered env self req r w response))
      as (_ & -> & _).
    rewrite n_calls_answered.
    replace (S (n_calls w) - 1)%nat with (n_calls w) by lia. by rewrite Ht.
Qed.

(** X1.  On a strategy with [r] retries, [_request_with_retries] calls the
    transport at least once and at most [max r 1] times, whatever the
    outcomes of the calls are. *)
Theorem transport_calls_bounded env fuel self req st r w :
  heap w !! default (_retry_strategy self) st = Some (OStrategy r) →
  (Z.to_nat r ≤ fuel)%nat → (1 ≤ fuel)%nat →
  let w' := (_request_with_retries env fuel self req st w).2 in
  (n_calls w < n_calls w' ≤ n_calls w + Z.to_nat r `max` 1)%nat.
Proof.
  intros H Hr Hfuel.
  by apply (attempts_calls env self req r), _request_with_retries_attempts.
Qed.

Lemma transport_calls_bounded_witness :
  let env := env_of (1#2) [Responded (response_of 503 None None);
                           Responded (response_of 404 None None)] in
  let w := world_of (example_heap 3) in
  let w' := (_request_with_retries env 3 (example_session true)
               example_request None w).2 in
  (n_calls w < n_calls w' ≤ n_calls w + Z.to_nat 3 `max` 1)%nat.
Proof.
  intros env w.
  apply (transport_calls_bounded env 3 (example_session true) example_request
           None 3 w); [reflexivity|cbn; lia|lia].
Defined.

(** X2.  Each transport call of [_request_with_retries] consumes one retry
    into one new strategy object: after [k] calls the heap has grown by
    exactly [k] objects, the [i]-th a strategy with [r - 1 - i] retries. *)
Theorem one_strategy_per_call env fuel self req st r w :
  heap w !! default (_retry_strategy self) st = Some (OStrategy r) →
  (Z.to_nat r ≤ fuel)%nat → (1 ≤ fuel)%nat →
  let w' := (_request_with_retries env fuel self req st w).2 in
  let k := (n_calls w' - n_calls w)%nat in
  length (heap w') = (length (heap w) + k)%nat
  ∧ ∀ i, (i < k)%nat →
         heap w' !! (length (heap w) + i)%nat
         = Some (OStrategy (r - 1 - Z.of_nat i)).
Proof.
  intros H Hr Hfuel. cbv zeta.
  rewrite (attempts_heap env self req r w)
    by by apply _request_with_retries_attempts.
  split.
  - by rewrite length_app, consumed_length.
  - intros i Hi. rewrite lookup_app_r by lia.
    replace (length (heap w) + i - length (heap w))%nat with i by lia.
    by apply consumed_lookup.
Qed.

Lemma one_strategy_per_call_witness :
  let env := env_of (1#2) [Responded (response_of 503 None None);
                           Responded (response_of 404 None None)] in
  let w := world_of (example_heap 3) in
  let w' := (_request_with_retries env 3 (example_session true)
               example_request None w).2 in
  let k := (n_calls w' - n_calls w)%nat in
  length (heap w') = (length (heap w) + k)%nat
  ∧ ∀ i, (i < k)%nat →
         heap w' !! (length (heap w) + i)%nat
         = Some (OStrategy (3 - 1 - Z.of_nat i)).
Proof.
  intros env w.
  apply (one_strategy_per_call env 3 (example_session true) example_request
           None 3 w); [reflexivity|cbn; lia|lia].
Defined.

(** X3.  [_request_with_retries] logs one warning for each retry and no
    other: one fewer than its transport calls, each naming the method and
    the url of the request. *)
Theorem one_warning_per_retry env fuel self req st r w :
  heap w !! default (_retry_strategy self) st = Some (OStrategy r) →
  (Z.to_nat r ≤ fuel)%nat → (1 ≤ fuel)%nat →
  let w' := (_request_with_retries env fuel self req st w).2 in
  ∃ ws,
    warnings (trace w') = warnings (trace w) ++ ws
    ∧ S (length ws) = (n_calls w' - n_calls w)%nat
    ∧ Forall (λ rec, ∃ status,
                rec = LogRetrying status (method req) (url req)) ws.
Proof.
  intros H Hr Hfuel.
  by apply (attempts_warnings env self req r), _request_with_retries_attempts.
Qed.

Lemma one_warning_per_retry_witness :
  let env := env_of (1#2) [Responded (response_of 503 None None);
                           Responded (response_of 404 None None)] in
  let w := world_of (example_heap 3) in
  let w' := (_request_with_retries env 3 (example_session true)
               example_request None w).2 in
  ∃ ws,
    warnings (trace w') = warnings (trace w) ++ ws
    ∧ S (length ws) = (n_calls w' - n_calls w)%nat
    ∧ Forall (λ rec, ∃ status,
                rec = LogRetrying status (method example_request)
                        (url example_request)) ws.
Proof.
  intros env w.
  apply (one_warning_per_retry env 3 (example_session true) example_request
           None 3 w); [reflexivity|cbn; lia|lia].
Defined.






(** A response settles to a value, to an error built from that response,
    or to an assertion error on its status. *)
Lemma response_result_cases response :
  (∃ v, response_result response = Ok v)
  ∨ (∃ cls, response_result response = Raise (Raised cls response))
  ∨ response_result response
    = Raise (AssertionError (status_code response)).
Proof.
  unfold response_result. rewrite settle_run.
  destruct (STATUS_EXCEPTIONS !! _); [right; left; by eexists|].
  repeat case_bool_decide; try (left; by eexists); try by right; right.
  destruct (json_result response); [left|right; left]; by eexists.
Qed.

(** X6.  The result of [_request_with_retries] is decided by the outcome of
    its last transport call alone: the earlier outcomes, the retries left
    and the authorizer play no part in the value returned or the
    exception raised. *)
Theorem result_is_that_of_the_last_call env fuel self req st r w :
  heap w !! default (_retry_strategy self) st = Some (OStrategy r) →
  (Z.to_nat r ≤ fuel)%nat → (1 ≤ fuel)%nat →
  let run := _request_with_retries env fuel self req st w in
  run.1 = outcome_result (transport env (n_calls run.2 - 1)).
Proof.
  intros H Hr Hfuel.
  by apply (attempts_result env self req r w), _request_with_retries_attempts.
Qed.

Lemma result_is_that_of_the_last_call_witness :
  let env := env_of (1#2) [Responded (response_of 503 None None);
                           Responded (response_of 404 None None)] in
  let run := _request_with_retries env 3 (example_session true)
               example_request None (world_of (example_heap 3)) in
  run.1 = outcome_result (transport env (n_calls run.2 - 1)).
Proof.
  intros env.
  apply (result_is_that_of_the_last_call env 3 (example_session true)
           example_request None 3 (world_of (example_heap 3)));
    [reflexivity|cbn; lia|lia].
Defined.

(** X7.  Started on a strategy object, [_request_with_retries] never fails
    on a missing response: it raises no AttributeError and no TypeError.
    What it raises is an error built from a response, the
    [RequestException] of the transport, an exception the transport let
    through, or the assertion error; and the recursion is no deeper than
    the retries of the strategy. *)
Theorem no_attribute_error env fuel self req st r w :
  heap w !! default (_retry_strategy self) st = Some (OStrategy r) →
  (Z.to_nat r ≤ fuel)%nat → (1 ≤ fuel)%nat →
  let run := _request_with_retries env fuel self req st w in
  run.1 ≠ Raise AttributeError
  ∧ run.1 ≠ Raise TypeError
  ∧ run.1 ≠ OutOfFuel
  ∧ ((∃ v, run.1 = Ok v)
     ∨ (∃ cls response, run.1 = Raise (Raised cls response))
     ∨ (∃ e, run.1 = Raise (RequestFailed e))
     ∨ (∃ e, run.1 = Raise (Foreign e))
     ∨ (∃ status, run.1 = Raise (AssertionError status))).
Proof.
  intros H Hr Hfuel. cbv zeta.
  rewrite (attempts_result env self req r w)
    by by apply _request_with_retries_attempts.
  destruct (transport env _) as [response|e|e]; cbn [outcome_result].
  - destruct (response_result_cases response) as [[v ->]|[[cls ->]| ->]];
      (split; [done|]; split; [done|]; split; [done|]).
    + left. by eexists.
    + right; left. by eexists _, _.
    + do 4 right. by eexists.
  - split; [done|]. split; [done|]. split; [done|].
    do 2 right; left. by eexists.
  - split; [done|]. split; [done|]. split; [done|].
    do 3 right; left. by eexists.
Qed.

Lemma no_attribute_error_witness :
  let env := env_of (1#2) [Responded (response_of 503 None None);
                           Responded (response_of 404 None None)] in
  let run := _request_with_retries env 3 (example_session true)
               example_request None (world_of (example_heap 3)) in
  run.1 ≠ Raise AttributeError
  ∧ run.1 ≠ Raise TypeError
  ∧ run.1 ≠ OutOfFuel
  ∧ ((∃ v, run.1 = Ok v)
     ∨ (∃ cls response, run.1 = Raise (Raised cls response))
     ∨ (∃ e, run.1 = Raise (RequestFailed e))
     ∨ (∃ e, run.1 = Raise (Foreign e))
     ∨ (∃ status, run.1 = Raise (AssertionError status))).
Proof.
  intros env.
  apply (no_attribute_error env 3 (example_session true) example_request
           None 3 (world_of (example_heap 3))); [reflexivity|cbn; lia|lia].
Defined.



(** * Retried outcomes *)

(** X9.  When the transport call raises a [RequestException] whose original
    exception is an instance of a class in [RETRY_EXCEPTIONS] and retries
    are left, [_make_request] raises nothing and returns the original
    exception in place of a response; [_request_with_retries] logs a
    warning that names it and makes a further attempt on the consumed
    strategy, so that at least two transport calls are made. *)
Theorem retryable_failure_is_retried env fuel self req st r w e :
  heap w !! default (_retry_strategy self) st = Some (OStrategy r) →
  transport env (n_calls w) = Failed e →
  isinstance (original_exception e) RETRY_EXCEPTIONS = true →
  (r - 1 > 0)%Z →
  let w0 := slept_world env r w in
  let w1 := logged (log_request_events req w0) w0 in
  let w2 := logged [retry_warning req (inl (original_exception e))]
                   (attempted env self req r w) in
  let run := _request_with_retries env (S (S fuel)) self req st w in
  _make_request env self req (bool_decide (r - 1 > 0)%Z) w1
    = (Ok (None, Some (original_exception e)), attempted env self req r w)
  ∧ run = _request_with_retries env (S fuel) self req
            (Some (length (heap w))) w2
  ∧ heap w2 !! length (heap w) = Some (OStrategy (r - 1))
  ∧ (n_calls w + 2 ≤ n_calls run.2)%nat.
Proof.
  intros H Ht Hi Hr. cbv zeta.
  rewrite (_request_with_retries_unfold _ _ _ _ _ r) by done. cbv zeta.
  rewrite _make_request_run.
  change (n_calls (logged _ _)) with (n_calls w).
  rewrite Ht, Hi, (bool_decide_eq_true_2 (r - 1 > 0)%Z) by done.
  cbn [negb orb andb]. fold (attempted env self req r w).
  split; [done|]. split; [done|].
  assert (Hnew : heap (logged [retry_warning req (inl (original_exception e))]
                         (attempted env self req r w)) !! length (heap w)
                 = Some (OStrategy (r - 1))) by apply heap_new_state.
  split; [done|].
  pose proof (_request_with_retries_calls_once env self req fuel
                (Some (length (heap w))) (r - 1) _ Hnew) as Hc.
  revert Hc. autorewrite with world. lia.
Qed.

Lemma retryable_failure_is_retried_witness :
  let e := {| original_exception :=
                {| exc_mro := ["ConnectTimeout"; "ConnectionError"; "Timeout";
                               "RequestException"; "IOError"; "Exception"];
                   exc_args := "timed out" |};
              request_args := "get" |} in
  let env := env_of (1#2) [Failed e] in
  let w := world_of (example_heap 3) in
  let w0 := slept_world env 3 w in
  let w1 := logged (log_request_events example_request w0) w0 in
  let w2 := logged [retry_warning example_request
                      (inl (original_exception e))]
                   (attempted env (example_session true) example_request 3 w) in
  let run := _request_with_retries env 2 (example_session true)
               example_request None w in
  _make_request env (example_session true) example_request
      (bool_decide (3 - 1 > 0)%Z) w1
    = (Ok (None, Some (original_exception e)),
       attempted env (example_session true) example_request 3 w)
  ∧ run = _request_with_retries env 1 (example_session true) example_request
            (Some 2) w2
  ∧ heap w2 !! 2%nat = Some (OStrategy (3 - 1))
  ∧ (2 ≤ n_calls run.2)%nat.
Proof.
  intros e env w.
  apply (retryable_failure_is_retried env 0 (example_session true)
           example_request None 3 w e); [reflexivity..|lia].
Defined.

(** X10.  A response whose status is in [RETRY_STATUSES], received while
    retries are left, raises nothing: a warning with the status is logged,
    the access token is left alone, and a further attempt is made on the
    consumed strategy, so that at least two transport calls are made. *)
Theorem retryable_status_is_retried env fuel self req st r w response :
  heap w !! default (_retry_strategy self) st = Some (OStrategy r) →
  transport env (n_calls w) = Responded response →
  status_code response ∈ RETRY_STATUSES →
  (r - 1 > 0)%Z →
  let w2 := logged [retry_warning req (inr (status_code response))]
                   (response_logged response (attempted env self req r w)) in
  let run := _request_with_retries env (S (S fuel)) self req st w in
  run = _request_with_retries env (S fuel) self req (Some (length (heap w))) w2
  ∧ heap w2 !! length (heap w) = Some (OStrategy (r - 1))
  ∧ clears (trace w2) = clears (trace w)
  ∧ access_token w2 = access_token (attempted env self req r w)
  ∧ (n_calls w + 2 ≤ n_calls run.2)%nat.
Proof.
  intros H Ht Hs Hr. cbv zeta.
  rewrite (_request_with_retries_unfold _ _ _ _ _ r) by done. cbv zeta.
  rewrite Ht.
  rewrite (bool_decide_eq_false_2 (status_code response = 401%Z))
    by by apply retry_status_not_401.
  rewrite (bool_decide_eq_true_2 _ Hs),
    (bool_decide_eq_true_2 (r - 1 > 0)%Z) by done.
  cbn [andb orb]. split; [done|].
  assert (Hnew : heap (logged [retry_warning req (inr (status_code response))]
                         (response_logged response
                            (attempted env self req r w))) !! length (heap w)
                 = Some (OStrategy (r - 1))).
  { autorewrite with world. apply lookup_fresh. }
  split; [done|]. split; [|split; [done|]].
  - rewrite trace_logged, trace_response_logged, !clears_app,
      clears_attempted. cbn. lia.
  - pose proof (_request_with_retries_calls_once env self req fuel
                  (Some (length (heap w))) (r - 1) _ Hnew) as Hc.
    revert Hc. autorewrite with world. lia.
Qed.

Lemma retryable_status_is_retried_witness :
  let response := response_of 522 None None in
  let env := env_of (1#2) [Responded response] in
  let w := world_of (example_heap 3) in
  let w2 := logged [retry_warning example_request (inr 522%Z)]
              (response_logged response
                 (attempted env (example_session true) example_request 3 w)) in
  let run := _request_with_retries env 2 (example_session true)
               example_request None w in
  run = _request_with_retries env 1 (example_session true) example_request
          (Some 2) w2
  ∧ heap w2 !! 2%nat = Some (OStrategy (3 - 1))
  ∧ clears (trace w2) = clears (trace w)
  ∧ access_token w2
    = access_token (attempted env (example_session true) example_request 3 w)
  ∧ (2 ≤ n_calls run.2)%nat.
Proof.
  intros response env w.
  apply (retryable_status_is_retried env 0 (example_session true)
           example_request None 3 w response); [reflexivity..| |lia].
  apply elem_of_RETRY_STATUSES. cbn. lia.
Defined.

(** X11.  An exception of the transport call that is not a
    [RequestException] is not caught: [_make_request] lets it through
    whatever [should_retry_on_failure] is, and [_request_with_retries] ends
    with it after that one call, however many retries are left. *)
Theorem foreign_exception_propagates env fuel self req st r w e :
  heap w !! default (_retry_strategy self) st = Some (OStrategy r) →
  transport env (n_calls w) = Crashed e →
  (∀ should_retry_on_failure,
     _make_request env self req should_retry_on_failure w
     = (Raise (Foreign e), called_world env self req w))
  ∧ _request_with_retries env (S fuel) self req st w
    = (Raise (Foreign e), attempted env self req r w)
  ∧ n_calls (attempted env self req r w) = S (n_calls w)
  ∧ warnings (trace (attempted env self req r w)) = warnings (trace w).
Proof.
  intros H Ht. split; [|split; [|split]].
  - intros sr. by rewrite _make_request_run, Ht.
  - rewrite (_request_with_retries_unfold _ _ _ _ _ r) by done. cbv zeta.
    by rewrite Ht.
  - apply n_calls_attempted.
  - apply warnings_attempted.
Qed.

Lemma foreign_exception_propagates_witness :
  let e := {| exc_mro := ["KeyboardInterrupt"; "BaseException"];
              exc_args := "" |} in
  let env := env_of (1#2) [Crashed e] in
  let w := world_of (example_heap 3) in
  (∀ should_retry_on_failure,
     _make_request env (example_session true) example_request
       should_retry_on_failure w
     = (Raise (Foreign e),
        called_world env (example_session true) example_request w))
  ∧ _request_with_retries env 1 (example_session true) example_request None w
    = (Raise (Foreign e),
       attempted env (example_session true) example_request 3 w)
  ∧ n_calls (attempted env (example_session true) example_request 3 w) = 1
  ∧ warnings (trace (attempted env (example_session true) example_request
                       3 w)) = [].
Proof.
  intros e env w.
  apply (foreign_exception_propagates env 0 (example_session true)
           example_request None 3 w e); reflexivity.
Defined.

(** X12.  When [_make_request] returns, it has made exactly one transport
    call and returns either the response with no exception, or no
    response with the original exception of a [RequestException] that the
    transport raised; the latter only when [should_retry_on_failure] is
    true and the exception is an instance of a class in
    [RETRY_EXCEPTIONS]. *)
Theorem _make_request_returns env self req should_retry_on_failure w
    response saved_exception w' :
  _make_request env self req should_retry_on_failure w
  = (Ok (response, saved_exception), w') →
  n_calls w' = S (n_calls w)
  ∧ ((∃ r, response = Some r ∧ saved_exception = None
           ∧ transport env (n_calls w) = Responded r)
     ∨ (∃ e, response = None
             ∧ saved_exception = Some (original_exception e)
             ∧ transport env (n_calls w) = Failed e
             ∧ should_retry_on_failure = true
             ∧ isinstance (original_exception e) RETRY_EXCEPTIONS = true)).
Proof.
  rewrite _make_request_run.
  assert (Hn : n_calls (called_world env self req w) = S (n_calls w)).
  { unfold called_world, header_world. by destruct (negb _ && _). }
  destruct (transport env (n_calls w)) as [r|e|e]; [| |done].
  - intros [= <- <- <-]. split; [by autorewrite with world|].
    left. by exists r.
  - destruct should_retry_on_failure; [|done].
    destruct (isinstance _ _) eqn:Hi; [|done]. cbn [negb orb].
    intros [= <- <- <-]. split; [done|]. right. by exists e.
Qed.

Lemma _make_request_returns_witness :
  let e := {| original_exception :=
                {| exc_mro := ["ReadTimeout"; "Timeout"; "RequestException";
                               "IOError"; "Exception"];
                   exc_args := "read timed out" |};
              request_args := "get" |} in
  let env := env_of (1#2) [Failed e] in
  let w := world_of (example_heap 3) in
  n_calls (called_world env (example_session true) example_request w) = 1
  ∧ ((∃ r, (None : option Response) = Some r
           ∧ Some (original_exception e) = None
           ∧ transport env (n_calls w) = Responded r)
     ∨ (∃ e', (None : option Response) = None
              ∧ Some (original_exception e) = Some (original_exception e')
              ∧ transport env (n_calls w) = Failed e'
              ∧ true = true
              ∧ isinstance (original_exception e') RETRY_EXCEPTIONS = true)).
Proof.
  intros e env w.
  apply (_make_request_returns env (example_session true) example_request
           true w None (Some (original_exception e))
           (called_world env (example_session true) example_request w)).
  reflexivity.
Defined.

(** * The authorization header *)

Lemma authorizations_app t1 t2 :
  authorizations (t1 ++ t2) = authorizations t1 ++ authorizations t2.
Proof. apply omap_app. Qed.

Lemma authorizations_sleep_events u r : authorizations (sleep_events u r) = [].
Proof. unfold sleep_events. by case_bool_decide. Qed.

Lemma authorizations_attempted env self req r w :
  authorizations (trace (attempted env self req r w))
  = authorizations (trace w) ++ [next_authorization env self w].
Proof.
  rewrite trace_attempted, !authorizations_app, authorizations_sleep_events.
  unfold next_authorization. by destruct (negb _ && _).
Qed.

(** The trace only grows. *)
Lemma attempts_trace env self req r w out :
  attempts env self req r w out →
  ∃ t, trace out.2 = trace (attempted env self req r w) ++ t.
Proof.
  induction 1 as [r w e Ht|r w e Ht Hre|r w e out Ht Hre Hout IH
                 |r w response Ht Hre|r w response out Ht Hre Hout IH].
  - exists []. by rewrite app_nil_r.
  - exists []. by rewrite app_nil_r.
  - destruct IH as [t IH]. rewrite IH, trace_attempted, trace_logged.
    rewrite <- !app_assoc. by eexists.
  - destruct (settle_world (Some response)
                (answered env self req r w response)) as [->|[r' ->]];
      rewrite ?trace_logged, trace_answered, <- ?app_assoc; by eexists.
  - destruct IH as [t IH].
    rewrite IH, trace_attempted, trace_logged, trace_answered.
    rewrite <- !app_assoc. by eexists.
Qed.

Lemma attempts_first_authorization env self req r w out :
  attempts env self req r w out →
  ∃ rest,
    authorizations (trace out.2)
    = authorizations (trace w) ++ next_authorization env self w :: rest.
Proof.
  intros [t Ht]%attempts_trace.
  rewrite Ht, authorizations_app, authorizations_attempted, <- app_assoc.
  by eexists.
Qed.



(** X14.  After a 401, with an authorizer that has [refresh] and retries
    left, the next transport call is made with a refreshed token: the
    header of the second call is built from the token that [refresh]
    returned after the 401. *)
Theorem unauthorized_retry_sends_fresh_token env fuel self req st r w
    response :
  heap w !! default (_retry_strategy self) st = Some (OStrategy r) →
  (Z.to_nat r ≤ fuel)%nat →
  transport env (n_calls w) = Responded response →
  status_code response = 401%Z →
  _authorizer_has_refresh self = true →
  (r - 1 > 0)%Z →
  let run := _request_with_retries env fuel self req st w in
  ∃ rest,
    authorizations (trace run.2)
    = authorizations (trace w)
      ++ next_authorization env self w
      :: ("bearer "
          +:+ refreshed env (n_refresh (attempted env self req r w)))
      :: rest.
Proof.
  intros H Hfuel Ht H401 Href Hr. cbv zeta.
  destruct fuel as [|fuel]; [lia|].
  rewrite (_request_with_retries_unfold _ _ _ _ _ r) by done. cbv zeta.
  rewrite Ht, H401, Href.
  rewrite (bool_decide_eq_true_2 (401 = 401)%Z),
    (bool_decide_eq_true_2 (r - 1 > 0)%Z) by done.
  cbn [andb orb].
  set (w4 := logged _ (cleared_world _)).
  assert (Hnew : heap w4 !! default (_retry_strategy self)
                                    (Some (length (heap w)))
                 = Some (OStrategy (r - 1))).
  { unfold w4. autorewrite with world. apply lookup_fresh. }
  destruct (attempts_first_authorization env self req (r - 1) w4
              (_request_with_retries env fuel self req
                 (Some (length (heap w))) w4)) as [rest ->].
  { apply _request_with_retries_attempts; [done|lia..]. }
  exists rest. unfold w4 at 1.
  rewrite trace_logged, trace_cleared_world, trace_response_logged,
    !authorizations_app, authorizations_attempted.
  cbn [authorizations omap]. rewrite !app_nil_r, <- app_assoc.
  do 3 f_equal. unfold next_authorization, w4.
  by rewrite Href.
Qed.

Lemma unauthorized_retry_sends_fresh_token_witness :
  let response := response_of 401 None None in
  let env := env_of (1#2) [Responded response] in
  let w := world_of (example_heap 3) in
  let run := _request_with_retries env 3 (example_session true)
               example_request None w in
  ∃ rest,
    authorizations (trace run.2)
    = authorizations (trace w)
      ++ next_authorization env (example_session true) w
      :: ("bearer "
          +:+ refreshed env
                (n_refresh (attempted env (example_session true)
                              example_request 3 w)))
      :: rest.
Proof.
  intros response env w.
  apply (unauthorized_retry_sends_fresh_token env 3 (example_session true)
           example_request None 3 w response);
    [reflexivity|cbn; lia|reflexivity..|lia].
Defined.

(** * What [request] sends *)

Lemma request_calls env fuel self caller_method path caller_data caller_files
    caller_json caller_params w :
  params_ok (heap w) caller_params →
  data_ok (heap w) caller_data →
  let run := request env fuel self caller_method path caller_data
               caller_files caller_json caller_params w in
  ∃ p' ext,
    let req := {| data := transmitted_data (heap w) caller_data;
                  files := caller_files; json := caller_json;
                  method := caller_method; params := p';
                  url := urljoin env (oauth_url env) path |} in
    run = _request_with_retries env fuel self req None
            (with_heap (heap w ++ ext) w)
    ∧ call_events (trace run.2)
      = call_events (trace w)
        ++ replicate (n_calls run.2 - n_calls w)
             (req, Some (ODict (<["raw_json":=PInt 1]>
                                  (params_items (heap w) caller_params)))).
Proof.
  intros Hp Hd. cbv zeta.
  destruct (request_run env fuel self caller_method path caller_data
              caller_files caller_json caller_params w Hp Hd)
    as (p' & ext & -> & Hlook & Hle).
  exists p', ext. split; [done|].
  set (req := {| data := transmitted_data (heap w) caller_data;
                 files := caller_files; json := caller_json;
                 method := caller_method; params := p';
                 url := urljoin env (oauth_url env) path |}).
  set (w1 := with_heap (heap w ++ ext) w).
  destruct (_request_with_retries_calls env self req fuel None w1)
    as [_ Hc].
  { change (is_Some ((heap w ++ ext) !! p')). by rewrite Hlook. }
  change (heap w1 !! params req) with ((heap w ++ ext) !! p') in Hc.
  by rewrite Hlook in Hc.
Qed.

(** X15.  [request] itself calls nothing and logs nothing: it is the retry
    loop, entered in a world that differs from the caller's by new heap
    objects only, on a request with the method, the files and the json
    body it was given and the url [urljoin(oauth_url, path)]; every
    transport call carries that request. *)
Theorem request_sends_what_it_is_given env fuel self caller_method path
    caller_data caller_files caller_json caller_params w :
  params_ok (heap w) caller_params →
  data_ok (heap w) caller_data →
  let run := request env fuel self caller_method path caller_data
               caller_files caller_json caller_params w in
  ∃ req ext query,
    run = _request_with_retries env fuel self req None
            (with_heap (heap w ++ ext) w)
    ∧ method req = caller_method
    ∧ url req = urljoin env (oauth_url env) path
    ∧ files req = caller_files
    ∧ json req = caller_json
    ∧ call_events (trace run.2)
      = call_events (trace w)
        ++ replicate (n_calls run.2 - n_calls w) (req, Some (ODict query)).
Proof.
  intros Hp Hd.
  destruct (request_calls env fuel self caller_method path caller_data
              caller_files caller_json caller_params w Hp Hd)
    as (p' & ext & Hrun & Hc).
  eexists _, ext, _. split; [exact Hrun|]. by repeat split.
Qed.

Lemma request_sends_what_it_is_given_witness :
  let env := env_of (1#2) [Responded (response_of 503 None None)] in
  let w := world_of [ODict {[ "b" := PInt 2; "a" := PInt 1 ]};
                     OStrategy 3;
                     ODict {[ "limit" := PInt 10 ]}] in
  let run := request env 3 (example_session true) "post" "/api/submit"
               (DDict 0) (Some "image") None (Some 2) w in
  ∃ req ext query,
    run = _request_with_retries env 3 (example_session true) req None
            (with_heap (heap w ++ ext) w)
    ∧ method req = "post"
    ∧ url req = urljoin env (oauth_url env) "/api/submit"
    ∧ files req = Some "image"
    ∧ json req = None
    ∧ call_events (trace run.2)
      = call_events (trace w)
        ++ replicate (n_calls run.2 - n_calls w) (req, Some (ODict query)).
Proof.
  intros env w.
  apply (request_sends_what_it_is_given env 3 (example_session true) "post"
           "/api/submit" (DDict 0) (Some "image") None (Some 2) w).
  - eexists. reflexivity.
  - eexists. reflexivity.
Defined.

(** X16.  A body that is not a dict (nothing, bytes, a list of pairs) is
    sent as it was given: [request] adds the [api_type] field to dicts
    only, and does not sort what is not a dict. *)
Theorem body_that_is_no_dict_is_unchanged env fuel self caller_method path
    caller_data caller_files caller_json caller_params w :
  params_ok (heap w) caller_params →
  (∀ l, caller_data ≠ DDict l) →
  let run := request env fuel self caller_method path caller_data
               caller_files caller_json caller_params w in
  ∃ req query,
    data req = caller_data
    ∧ call_events (trace run.2)
      = call_events (trace w)
        ++ replicate (n_calls run.2 - n_calls w) (req, Some (ODict query)).
Proof.
  intros Hp Hd.
  destruct (request_calls env fuel self caller_method path caller_data
              caller_files caller_json caller_params w Hp)
    as (p' & ext & Hrun & Hc).
  { destruct caller_data as [| |l|]; try done. by destruct (Hd l). }
  eexists _, _. split; [|exact Hc].
  cbn. destruct caller_data as [| |l|]; try done. by destruct (Hd l).
Qed.

Lemma body_that_is_no_dict_is_unchanged_witness :
  let env := env_of (1#2) [Responded (response_of 503 None None)] in
  let w := world_of (example_heap 3) in
  let body := DItems [("b", PInt 2); ("a", PInt 1)] in
  let run := request env 3 (example_session true) "post" "/api/submit"
               body None None None w in
  ∃ req query,
    data req = body
    ∧ call_events (trace run.2)
      = call_events (trace w)
        ++ replicate (n_calls run.2 - n_calls w) (req, Some (ODict query)).
Proof.
  intros env w body.
  apply (body_that_is_no_dict_is_unchanged env 3 (example_session true)
           "post" "/api/submit" body None None None w); done.
Defined.

(** X17.  A session made by [Session(authorizer)] has a strategy of three
    retries, and a request on a session with such a strategy calls the
    transport at least once and at most three times, whatever the outcomes
    are; the strategy of the session is left as it was, so that the next
    request has three attempts again. *)
Theorem session_request_budget env fuel self caller_method path caller_data
    caller_files caller_json caller_params w :
  heap w !! _retry_strategy self = Some (OStrategy 3) →
  params_ok (heap w) caller_params →
  data_ok (heap w) caller_data →
  (3 ≤ fuel)%nat →
  let w' := (request env fuel self caller_method path caller_data
               caller_files caller_json caller_params w).2 in
  (∀ has_refresh w0,
     ∃ made w1,
       Session_init (Authorizer has_refresh) w0 = (Ok made, w1)
       ∧ heap w1 !! _retry_strategy made = Some (OStrategy 3))
  ∧ (n_calls w < n_calls w' ≤ n_calls w + 3)%nat
  ∧ heap w' !! _retry_strategy self = Some (OStrategy 3).
Proof.
  intros Hs Hp Hd Hfuel. cbv zeta. split; [|split].
  - intros has_refresh w0. eexists _, _. split; [reflexivity|].
    cbn. apply lookup_fresh.
  - destruct (request_run env fuel self caller_method path caller_data
                caller_files caller_json caller_params w Hp Hd)
      as (p' & ext & -> & _).
    match goal with
    | |- context [_request_with_retries env fuel self ?req None ?w1] =>
        pose proof (attempts_calls env self req 3 w1
                      (_request_with_retries env fuel self req None w1)) as Hc
    end.
    cbn [n_calls with_heap] in Hc. apply Hc.
    apply _request_with_retries_attempts; [|cbn; lia..].
    by apply lookup_app_l_Some.
  - destruct (triple_request (heap w) env fuel self caller_method path
                caller_data caller_files caller_json caller_params w)
      as [Hpre _]; [done|].
    by eapply prefix_lookup_Some.
Qed.

Lemma session_request_budget_witness :
  let env := env_of (1#2) (replicate 9 (Responded (response_of 503 None None))) in
  let w := world_of (example_heap 3) in
  let w' := (request env 3 (example_session true) "get" "/api/v1/me" DNone
               None None (Some 0) w).2 in
  (∀ has_refresh w0,
     ∃ made w1,
       Session_init (Authorizer has_refresh) w0 = (Ok made, w1)
       ∧ heap w1 !! _retry_strategy made = Some (OStrategy 3))
  ∧ (n_calls w < n_calls w' ≤ n_calls w + 3)%nat
  ∧ heap w' !! _retry_strategy (example_session true) = Some (OStrategy 3).
Proof.
  intros env w.
  apply (session_request_budget env 3 (example_session true) "get"
           "/api/v1/me" DNone None None (Some 0) w);
    [reflexivity|by eexists|done|lia].
Defined.

(** * The access token and the decoder over a whole request *)

Lemma clears_answered env self req r w response :
  clears (trace (answered env self req r w response))
  = (clears (trace w)
     + if bool_decide (status_code response = 401%Z) then 1 else 0)%nat.
Proof.
  rewrite trace_answered, clears_app, clears_attempted.
  by destruct (bool_decide _).
Qed.

Lemma settle_trace_clears response w :
  clears (trace (settle response w).2) = clears (trace w).
Proof. by destruct (settle_frame response w) as (_ & _ & _ & _ & ->). Qed.

Lemma attempts_clears env self req r w out :
  attempts env self req r w out →
  clears (trace out.2)
  = (clears (trace w)
     + unauthorized_answers env (n_calls w) (n_calls out.2 - n_calls w))%nat.
Proof.
  induction 1 as [r w e Ht|r w e Ht Hre|r w e out Ht Hre Hout IH
                 |r w response Ht Hre|r w response out Ht Hre Hout IH].
  - cbn [snd]. rewrite clears_attempted. autorewrite with world.
    replace (S (n_calls w) - n_calls w)%nat with 1%nat by lia.
    cbn [unauthorized_answers]. rewrite Ht. lia.
  - cbn [snd]. rewrite clears_attempted. autorewrite with world.
    replace (S (n_calls w) - n_calls w)%nat with 1%nat by lia.
    cbn [unauthorized_answers]. rewrite Ht. lia.
  - apply attempts_calls in Hout. revert Hout IH. autorewrite with world.
    rewrite clears_app, clears_attempted. intros Hout ->.
    replace (n_calls out.2 - n_calls w)%nat
      with (S (n_calls out.2 - S (n_calls w))) by lia.
    cbn [unauthorized_answers]. rewrite Ht. cbn. lia.
  - rewrite settle_trace_clears, clears_answered.
    destruct (settle_frame (Some response) (answered env self req r w response))
      as (_ & -> & _).
    rewrite n_calls_answered.
    replace (S (n_calls w) - n_calls w)%nat with 1%nat by lia.
    cbn [unauthorized_answers]. rewrite Ht. lia.
  - apply attempts_calls in Hout. revert Hout IH. autorewrite with world.
    rewrite clears_app, clears_answered, n_calls_answered. intros Hout ->.
    replace (n_calls out.2 - n_calls w)%nat
      with (S (n_calls out.2 - S (n_calls w))) by lia.
    cbn [unauthorized_answers]. rewrite Ht. cbn. lia.
Qed.

(** X18.  Over a whole call of [_request_with_retries] the access token is
    cleared once for each response with status 401, retried or not, and
    never for another outcome. *)
Theorem token_cleared_once_per_401 env fuel self req st r w :
  heap w !! default (_retry_strategy self) st = Some (OStrategy r) →
  (Z.to_nat r ≤ fuel)%nat → (1 ≤ fuel)%nat →
  let w' := (_request_with_retries env fuel self req st w).2 in
  clears (trace w')
  = (clears (trace w)
     + unauthorized_answers env (n_calls w) (n_calls w' - n_calls w))%nat.
Proof.
  intros H Hr Hfuel.
  by apply (attempts_clears env self req r), _request_with_retries_attempts.
Qed.

Lemma token_cleared_once_per_401_witness :
  let env := env_of (1#2) [Responded (response_of 401 None None);
                           Responded (response_of 503 None None);
                           Responded (response_of 401 None None)] in
  let w := world_of (example_heap 3) in
  let w' := (_request_with_retries env 3 (example_session true)
               example_request None w).2 in
  clears (trace w')
  = (clears (trace w)
     + unauthorized_answers env (n_calls w) (n_calls w' - n_calls w))%nat.
Proof.
  intros env w.
  apply (token_cleared_once_per_401 env 3 (example_session true)
           example_request None 3 w); [reflexivity|cbn; lia|lia].
Defined.

Lemma settle_decodes response w :
  decodes (trace (settle (Some response) w).2) = decodes (trace w)
  ∨ (decodes (trace (settle (Some response) w).2)
     = decodes (trace w) ++ [response]
     ∧ status_code response ∈ SUCCESS_STATUSES
     ∧ headers response !! "content-length" ≠ Some "0").
Proof.
  rewrite settle_run.
  destruct (STATUS_EXCEPTIONS !! _); [by left|].
  repeat case_bool_decide; try by left.
  right. cbn [snd]. by rewrite trace_logged, decodes_app.
Qed.

Lemma decodes_answered env self req r w response :
  decodes (trace (answered env self req r w response)) = decodes (trace w).
Proof.
  rewrite trace_answered, decodes_app, decodes_attempted.
  destruct (bool_decide _); cbn; by rewrite app_nil_r.
Qed.

Lemma attempts_decodes env self req r w out :
  attempts env self req r w out →
  decodes (trace out.2) = decodes (trace w)
  ∨ ∃ response,
      decodes (trace out.2) = decodes (trace w) ++ [response]
      ∧ transport env (n_calls out.2 - 1) = Responded response
      ∧ status_code response ∈ SUCCESS_STATUSES
      ∧ headers response !! "content-length" ≠ Some "0".
Proof.
  induction 1 as [r w e Ht|r w e Ht Hre|r w e out Ht Hre Hout IH
                 |r w response Ht Hre|r w response out Ht Hre Hout IH].
  - left. cbn [snd]. apply decodes_attempted.
  - left. cbn [snd]. apply decodes_attempted.
  - revert IH. rewrite trace_logged, decodes_app, decodes_attempted.
    cbn [decodes omap]. by rewrite app_nil_r.
  - destruct (settle_frame (Some response) (answered env self req r w response))
      as (_ & Hn & _).
    destruct (settle_decodes response (answered env self req r w response))
      as [->|(-> & Hs & Hcl)]; rewrite decodes_answered; [by left|].
    right. exists response. split; [done|]. split; [|done].
    rewrite Hn, n_calls_answered.
    by replace (S (n_calls w) - 1)%nat with (n_calls w) by lia.
  - revert IH. rewrite trace_logged, decodes_app, decodes_answered.
    cbn [decodes omap]. by rewrite app_nil_r.
Qed.

(** X19.  [_request_with_retries] hands at most one response to the JSON
    decoder, and only the response of its last transport call, when that
    has a success status and a content-length other than "0": the body of
    a response that is retried is never decoded. *)
Theorem only_the_last_response_is_decoded env fuel self req st r w :
  heap w !! default (_retry_strategy self) st = Some (OStrategy r) →
  (Z.to_nat r ≤ fuel)%nat → (1 ≤ fuel)%nat →
  let w' := (_request_with_retries env fuel self req st w).2 in
  decodes (trace w') = decodes (trace w)
  ∨ ∃ response,
      decodes (trace w') = decodes (trace w) ++ [response]
      ∧ transport env (n_calls w' - 1) = Responded response
      ∧ status_code response ∈ SUCCESS_STATUSES
      ∧ headers response !! "content-length" ≠ Some "0".
Proof.
  intros H Hr Hfuel.
  by apply (attempts_decodes env self req r), _request_with_retries_attempts.
Qed.

Lemma only_the_last_response_is_decoded_witness :
  let env := env_of (1#2)
               [Responded (response_of 503 None (Some (PStr "busy")));
                Responded (response_of 200 None (Some (PStr "done")))] in
  let w := world_of (example_heap 3) in
  let w' := (_request_with_retries env 3 (example_session true)
               example_request None w).2 in
  decodes (trace w') = decodes (trace w)
  ∨ ∃ response,
      decodes (trace w') = decodes (trace w) ++ [response]
      ∧ transport env (n_calls w' - 1) = Responded response
      ∧ status_code response ∈ SUCCESS_STATUSES
      ∧ headers response !! "content-length" ≠ Some "0".
Proof.
  intros env w.
  apply (only_the_last_response_is_decoded env 3 (example_session true)
           example_request None 3 w); [reflexivity|cbn; lia|lia].
Defined.

(** X20.  A 401 does not buy an attempt beyond the retries: on a strategy
    with [n >= 1] retries and an authorizer that has [refresh], when each
    of the next [n] transport calls is answered with status 401,
    [_request_with_retries] makes exactly [n] calls and raises the
    authorization error of the last response, with the access token
    cleared. *)
Theorem unauthorized_every_time env self req fuel : ∀ (n : Z) st w,
  (1 ≤ n)%Z →
  heap w !! default (_retry_strategy self) st = Some (OStrategy n) →
  _authorizer_has_refresh self = true →
  (∀ k, (n_calls w ≤ k < n_calls w + Z.to_nat n)%nat →
        ∃ response, transport env k = Responded response
                    ∧ status_code response = 401%Z) →
  (Z.to_nat n ≤ fuel)%nat →
  ∃ w' response,
    _request_with_retries env fuel self req st w
    = (Raise (Raised authorization_error_class response), w')
    ∧ transport env (n_calls w + Z.to_nat n - 1) = Responded response
    ∧ n_calls w' = (n_calls w + Z.to_nat n)%nat
    ∧ access_token w' = None.
Proof.
  induction fuel as [|fuel IH]; intros n st w Hn H Href Hall Hfuel; [lia|].
  rewrite (_request_with_retries_unfold _ _ _ _ _ n) by done. cbv zeta.
  destruct (Hall (n_calls w)) as (response & Ht & H401); [lia|].
  rewrite Ht, H401, Href.
  rewrite (bool_decide_eq_true_2 (401 = 401)%Z) by done.
  cbn [andb orb].
  destruct (decide (n = 1%Z)) as [->|Hn1].
  - rewrite (bool_decide_eq_false_2 (1 - 1 > 0)%Z) by lia. cbn [andb].
    rewrite settle_run, H401.
    eexists _, response. split; [done|].
    replace (n_calls w + Z.to_nat 1 - 1)%nat with (n_calls w) by lia.
    split; [done|]. autorewrite with world. split; [lia|done].
  - rewrite (bool_decide_eq_true_2 (n - 1 > 0)%Z) by lia. cbn [andb].
    assert (Hto : Z.to_nat n = S (Z.to_nat (n - 1))) by lia.
    match goal with
    | |- context [_request_with_retries _ _ _ _ (Some ?l) ?w1] =>
        destruct (IH (n - 1)%Z (Some l) w1)
          as (w' & response' & Hrun & Ht' & Hc & Htok)
    end.
    { lia. }
    { autorewrite with world. apply lookup_fresh. }
    { done. }
    { intros k. autorewrite with world. intros Hk. apply Hall. lia. }
    { lia. }
    rewrite Hrun.
    revert Ht' Hc. autorewrite with world. rewrite Hto. intros Ht' Hc.
    exists w', response'. split; [done|]. split; [|split; [lia|done]].
    by replace (n_calls w + S (Z.to_nat (n - 1)) - 1)%nat
      with (S (n_calls w) + Z.to_nat (n - 1) - 1)%nat by lia.
Qed.

Lemma unauthorized_every_time_witness :
  let env := env_of (1#2) (replicate 3 (Responded (response_of 401 None None))) in
  let w := world_of (example_heap 3) in
  ∃ w' response,
    _request_with_retries env 3 (example_session true) example_request None w
    = (Raise (Raised authorization_error_class response), w')
    ∧ transport env (n_calls w + Z.to_nat 3 - 1) = Responded response
    ∧ n_calls w' = (n_calls w + Z.to_nat 3)%nat
    ∧ access_token w' = None.
Proof.
  intros env w.
  apply (unauthorized_every_time env (example_session true) example_request
           3 3 None w); [lia|reflexivity|reflexivity| |cbn; lia].
  intros [|[|[|k]]] Hk; [..|cbn in Hk; lia]; by eexists.
Defined.

(** * The debug log *)

Lemma fetchings_app t1 t2 :
  fetchings (t1 ++ t2) = fetchings t1 ++ fetchings t2.
Proof. apply omap_app. Qed.

Lemma fetchings_sleep_events u r : fetchings (sleep_events u r) = [].
Proof. unfold sleep_events. by case_bool_decide. Qed.

Lemma fetchings_attempted env self req r w :
  fetchings (trace (attempted env self req r w))
  = fetchings (trace w) ++ [(method req, url req)].
Proof.
  rewrite trace_attempted, !fetchings_app, fetchings_sleep_events.
  destruct (negb _ && _); cbn; by rewrite ?app_nil_r.
Qed.

Lemma fetchings_answered env self req r w response :
  fetchings (trace (answered env self req r w response))
  = fetchings (trace w) ++ [(method req, url req)].
Proof.
  rewrite trace_answered, fetchings_app, fetchings_attempted.
  destruct (bool_decide _); cbn; by rewrite app_nil_r.
Qed.

Lemma settle_trace_fetchings response w :
  fetchings (trace (settle response w).2) = fetchings (trace w).
Proof.
  destruct (settle_world response w) as [->|[r ->]]; [done|].
  rewrite trace_logged, fetchings_app. cbn. by rewrite app_nil_r.
Qed.

Lemma attempts_fetchings env self req r w out :
  attempts env self req r w out →
  fetchings (trace out.2)
  = fetchings (trace w)
    ++ replicate (n_calls out.2 - n_calls w) (method req, url req).
Proof.
  induction 1 as [r w e Ht|r w e Ht Hre|r w e out Ht Hre Hout IH
                 |r w response Ht Hre|r w response out Ht Hre Hout IH].
  - cbn [snd]. rewrite fetchings_attempted. autorewrite with world.
    by replace (S (n_calls w) - n_calls w)%nat with 1%nat by lia.
  - cbn [snd]. rewrite fetchings_attempted. autorewrite with world.
    by replace (S (n_calls w) - n_calls w)%nat with 1%nat by lia.
  - apply attempts_calls in Hout.
    revert IH Hout. autorewrite with world.
    rewrite fetchings_app, fetchings_attempted. cbn [fetchings omap].
    rewrite app_nil_r. intros -> Hout.
    replace (n_calls out.2 - n_calls w)%nat
      with (S (n_calls out.2 - S (n_calls w))) by lia.
    by rewrite <- app_assoc.
  - rewrite settle_trace_fetchings, fetchings_answered.
    destruct (settle_frame (Some response) (answered env self req r w response))
      as (_ & -> & _).
    rewrite n_calls_answered.
    by replace (S (n_calls w) - n_calls w)%nat with 1%nat by lia.
  - apply attempts_calls in Hout.
    revert IH Hout. autorewrite with world.
    rewrite fetchings_app, fetchings_answered, n_calls_answered.
    cbn [fetchings omap]. rewrite app_nil_r. intros -> Hout.
    replace (n_calls out.2 - n_calls w)%nat
      with (S (n_calls out.2 - S (n_calls w))) by lia.
    by rewrite <- app_assoc.
Qed.

(** X21.  Every transport call of [_request_with_retries] is announced in
    the debug log, retries included: [_log_request] writes one "Fetching"
    record with the method and the url of the request for each call, and
    none is written without a call. *)
Theorem every_call_is_announced env fuel self req st r w :
  heap w !! default (_retry_strategy self) st = Some (OStrategy r) →
  (Z.to_nat r ≤ fuel)%nat → (1 ≤ fuel)%nat →
  let w' := (_request_with_retries env fuel self req st w).2 in
  fetchings (trace w')
  = fetchings (trace w)
    ++ replicate (n_calls w' - n_calls w) (method req, url req).
Proof.
  intros H Hr Hfuel.
  by apply (attempts_fetchings env self req r), _request_with_retries_attempts.
Qed.

Lemma every_call_is_announced_witness :
  let env := env_of (1#2) [Responded (response_of 503 None None);
                           Responded (response_of 404 None None)] in
  let w := world_of (example_heap 3) in
  let w' := (_request_with_retries env 3 (example_session true)
               example_request None w).2 in
  fetchings (trace w')
  = fetchings (trace w)
    ++ replicate (n_calls w' - n_calls w)
         (method example_request, url example_request).
Proof.
  intros env w.
  apply (every_call_is_announced env 3 (example_session true) example_request
           None 3 w); [reflexivity|cbn; lia|lia].
Defined.
